(** * Dedalus MCP client: correlation registries, task polling, multi-server routing

    A shallow embedding of the TypeScript sources

    - [src/lib/mcp-client/cancellation.ts]  (CancellationManager)
    - [src/lib/mcp-client/tasks.ts]         (TaskStatusManager, waitForTask, sleep)
    - [src/lib/mcp-client/progress.ts]      (ProgressTracker)
    - [src/lib/mcp-client/client.ts]        (DedalusMCPClient)
    - [src/lib/mcp-client/manager.ts]       (MCPClientManager)
    - [src/lib/runner/mcp-integration.ts]   (aggregateMCPTools)

    JavaScript [Map]s are finite maps ([gmap]); objects that the code shares
    by reference (AbortControllers, the per-task [Set]s of callbacks) live in
    an explicit store and are named by their location, so that aliasing is
    visible.  Calls into the MCP SDK and the passage of time are inputs
    (oracles) of the operations, and what the code asks the SDK to do is
    recorded in a log. *)

From stdpp Require Import gmap strings list pretty.
From Stdlib Require Import ZArith Lia.

Set Default Proof Using "Type".

(* ===================================================================== *)
(** * JavaScript values shared by all modules *)
(* ===================================================================== *)

(** The error classes the code throws.  [Error] is the built-in class,
    the others are the subclasses declared in [errors.ts] and [tasks.ts];
    [instanceof] tests and [toThrow(Class)] tell the constructors apart. *)
Inductive JsError : Type :=
  | Error (message : string)
  | MCPConnectionError (message : string)
  | MCPTimeoutError (message : string) (timeoutMs : Z)
  | TaskTimeoutError (taskId : string) (timeoutMs : Z)
  | TaskAbortedError (taskId : string).

(** Outcome of a call that may throw, or of a promise once it has settled. *)
Inductive Result (A : Type) : Type :=
  | Ok (a : A)
  | Throw (e : JsError).
Global Arguments Ok {A} a.
Global Arguments Throw {A} e.

Global Instance JsError_eq_dec : EqDecision JsError.
Proof. solve_decision. Defined.

(** Truthiness of an optional string: [undefined] and the empty string are
    falsy. *)
Definition truthy (s : option string) : bool :=
  match s with
  | Some s => negb (bool_decide (s = EmptyString))
  | None => false
  end.

(** A double quote, for messages that contain one. *)
Definition dquote : string := String (Ascii.ascii_of_nat 34) EmptyString.

(* ===================================================================== *)
(** * cancellation.ts *)
(* ===================================================================== *)

Module Cancellation.

(** An [AbortController] is an object; the manager and its callers hold
    references to it.  The store [controllers] keeps one flag per
    controller ever allocated ([signal.aborted]); a reference is an index
    into it. *)
Abbreviation ControllerRef := (nat) (only parsing).

Section manager.
(** [RequestId = string | number]: any key type a [Map] can compare. *)
Context {RequestId : Type} `{Countable RequestId}.

Record CancellationManager := mkManager {
  controllers : list bool;
  pendingRequests : gmap RequestId ControllerRef;
  counter : N;
}.

Definition empty : CancellationManager :=
  {| controllers := []; pendingRequests := ∅; counter := 0 |}.

(** [controller.signal.aborted] *)
Definition aborted (c : ControllerRef) (m : CancellationManager) : bool :=
  default false (controllers m !! c).

(** [controller.abort()] *)
Definition abort (c : ControllerRef) (cs : list bool) : list bool :=
  <[c := true]> cs.

(** [create(requestId)]: a new controller, stored under the id (an
    earlier entry under the same id is overwritten, not aborted). *)
Definition create (requestId : RequestId) (m : CancellationManager)
  : ControllerRef * CancellationManager :=
  let controller := length (controllers m) in
  (controller,
   {| controllers := controllers m ++ [false];
      pendingRequests := <[requestId := controller]> (pendingRequests m);
      counter := counter m |}).

(** [complete(requestId)] *)
Definition complete (requestId : RequestId) (m : CancellationManager)
  : CancellationManager :=
  {| controllers := controllers m;
     pendingRequests := delete requestId (pendingRequests m);
     counter := counter m |}.

(** [cancel(requestId)] *)
Definition cancel (requestId : RequestId) (m : CancellationManager)
  : bool * CancellationManager :=
  match pendingRequests m !! requestId with
  | Some controller =>
      (true,
       {| controllers := abort controller (controllers m);
          pendingRequests := delete requestId (pendingRequests m);
          counter := counter m |})
  | None => (false, m)
  end.

(** [isPending(requestId)] *)
Definition isPending (requestId : RequestId) (m : CancellationManager) : bool :=
  bool_decide (is_Some (pendingRequests m !! requestId)).

(** [getSignal(requestId)]: the signal of the tracked controller. *)
Definition getSignal (requestId : RequestId) (m : CancellationManager)
  : option ControllerRef :=
  pendingRequests m !! requestId.

(** [get size()] *)
Definition size (m : CancellationManager) : nat :=
  base.size (pendingRequests m).

(** [cancelAll()]: abort every tracked controller, then clear the map. *)
Definition cancelAll (m : CancellationManager) : CancellationManager :=
  {| controllers :=
       map_fold (λ _ controller cs, abort controller cs)
                (controllers m) (pendingRequests m);
     pendingRequests := ∅;
     counter := counter m |}.

(** Every tracked reference points into the store (true of every manager
    built with the operations above). *)
Definition wf (m : CancellationManager) : Prop :=
  ∀ id c, pendingRequests m !! id = Some c → c < length (controllers m).

End manager.

Global Arguments CancellationManager _ {_ _}.

(** [generateRequestId()]: [`req-${Date.now()}-${this.counter++}`]; the
    clock reading [now] is an input. *)
Definition generateRequestId (now : N) (m : CancellationManager string)
  : string * CancellationManager string :=
  ("req-" +:+ pretty now +:+ "-" +:+ pretty (counter m),
   {| controllers := controllers m;
      pendingRequests := pendingRequests m;
      counter := (counter m + 1)%N |}).

End Cancellation.

(* ===================================================================== *)
(** * progress.ts *)
(* ===================================================================== *)

Module Progress.

(** A [ProgressCallback] is a function object, named by its identity. *)
Abbreviation ProgressCallback := (nat) (only parsing).

Record ProgressTracker := mkTracker {
  callbacks : gmap string ProgressCallback;
  counter : N;
}.

Definition empty : ProgressTracker := {| callbacks := ∅; counter := 0 |}.

(** [generateToken()]: [`progress-${Date.now()}-${this.counter++}`] *)
Definition generateToken (now : N) (t : ProgressTracker) : string * ProgressTracker :=
  ("progress-" +:+ pretty now +:+ "-" +:+ pretty (counter t),
   {| callbacks := callbacks t; counter := (counter t + 1)%N |}).

Definition register (token : string) (callback : ProgressCallback)
    (t : ProgressTracker) : ProgressTracker :=
  {| callbacks := <[token := callback]> (callbacks t); counter := counter t |}.

Definition unregister (token : string) (t : ProgressTracker) : ProgressTracker :=
  {| callbacks := delete token (callbacks t); counter := counter t |}.

Definition hasCallback (token : string) (t : ProgressTracker) : bool :=
  bool_decide (is_Some (callbacks t !! token)).

Definition size (t : ProgressTracker) : nat := base.size (callbacks t).

Definition clear (t : ProgressTracker) : ProgressTracker :=
  {| callbacks := ∅; counter := counter t |}.

End Progress.

(* ===================================================================== *)
(** * tasks.ts *)
(* ===================================================================== *)

Module Tasks.

Abbreviation TaskId := (string) (only parsing).

Inductive TaskState := pending | running | completed | failed | canceled.

Record Task := mkTask {
  id : TaskId;
  state : TaskState;
  message : option string;
  progress : option (Z * option Z);
}.

Record TaskResult := mkTaskResult {
  result_id : TaskId;
  result : option string;
  error : option (Z * string);
}.

(** A [TaskStatusCallback] is a function object, named by its identity. *)
Abbreviation TaskStatusCallback := (nat) (only parsing).

(** ** TaskStatusManager *)

(** A JavaScript [Set] of callbacks: insertion-ordered, no duplicates. *)
Abbreviation CallbackSet := (list TaskStatusCallback) (only parsing).

Definition set_add (callback : TaskStatusCallback) (s : CallbackSet) : CallbackSet :=
  if decide (callback ∈ s) then s else s ++ [callback].

Definition set_delete (callback : TaskStatusCallback) (s : CallbackSet) : CallbackSet :=
  filter (λ c, c ≠ callback) s.

(** The [Set] objects are shared between the manager's map and the
    unsubscribe closures, so they live in a store [sets] and are named by
    their index. *)
Abbreviation SetRef := (nat) (only parsing).

Record TaskStatusManager := mkStatusManager {
  sets : list CallbackSet;
  callbacks : gmap TaskId SetRef;
}.

Definition empty : TaskStatusManager := {| sets := []; callbacks := ∅ |}.

(** The closure returned by [subscribe]: it captures the variable
    [callbacks] (a reference to one [Set] object), [callback] and
    [taskId]. *)
Record Unsubscribe := mkUnsubscribe {
  captured_callbacks : SetRef;
  captured_callback : TaskStatusCallback;
  captured_taskId : TaskId;
}.

(** Contents of a [Set] object. *)
Definition set_at (s : SetRef) (m : TaskStatusManager) : CallbackSet :=
  default [] (sets m !! s).

(** [subscribe(taskId, callback)] *)
Definition subscribe (taskId : TaskId) (callback : TaskStatusCallback)
    (m : TaskStatusManager) : Unsubscribe * TaskStatusManager :=
  match callbacks m !! taskId with
  | Some s =>
      ({| captured_callbacks := s; captured_callback := callback;
          captured_taskId := taskId |},
       {| sets := alter (set_add callback) s (sets m);
          callbacks := callbacks m |})
  | None =>
      let s := length (sets m) in
      ({| captured_callbacks := s; captured_callback := callback;
          captured_taskId := taskId |},
       {| sets := sets m ++ [set_add callback []];
          callbacks := <[taskId := s]> (callbacks m) |})
  end.

(** Running the closure returned by [subscribe]:
    [callbacks?.delete(callback); if (callbacks?.size === 0)
     this.callbacks.delete(taskId)]. *)
Definition unsubscribe (u : Unsubscribe) (m : TaskStatusManager) : TaskStatusManager :=
  let sets' := alter (set_delete (captured_callback u)) (captured_callbacks u) (sets m) in
  if decide (length (default [] (sets' !! captured_callbacks u)) = 0)
  then {| sets := sets'; callbacks := delete (captured_taskId u) (callbacks m) |}
  else {| sets := sets'; callbacks := callbacks m |}.

(** The callbacks [handleStatus(task)] invokes, in order; each call sits
    in its own [try]/[catch], so all of them are invoked whatever any of
    them does. *)
Definition handleStatus (task : Task) (m : TaskStatusManager) : list TaskStatusCallback :=
  match callbacks m !! id task with
  | Some s => set_at s m
  | None => []
  end.

(** [hasSubscribers(taskId)] *)
Definition hasSubscribers (taskId : TaskId) (m : TaskStatusManager) : bool :=
  match callbacks m !! taskId with
  | Some s => bool_decide (0 < length (set_at s m))
  | None => false
  end.

(** [clear()]: empties the map; the [Set] objects themselves are left as
    they are. *)
Definition clear (m : TaskStatusManager) : TaskStatusManager :=
  {| sets := sets m; callbacks := ∅ |}.

(** Every [Set] the map refers to is in the store (true of every manager
    built with the operations above). *)
Definition wf (m : TaskStatusManager) : Prop :=
  ∀ taskId s, callbacks m !! taskId = Some s → s < length (sets m).

(** What other code may do to the manager while [waitForTask] is
    suspended at an [await]. *)
Inductive ManagerOp :=
  | OpSubscribe (taskId : TaskId) (callback : TaskStatusCallback)
  | OpUnsubscribe (u : Unsubscribe)
  | OpHandleStatus (task : Task)
  | OpClear.

Definition run_op (op : ManagerOp) (m : TaskStatusManager) : TaskStatusManager :=
  match op with
  | OpSubscribe taskId callback => (subscribe taskId callback m).2
  | OpUnsubscribe u => unsubscribe u m
  | OpHandleStatus _ => m
  | OpClear => clear m
  end.

Definition run_ops (ops : list ManagerOp) (m : TaskStatusManager) : TaskStatusManager :=
  foldl (λ m op, run_op op m) m ops.

(** ** waitForTask *)

Record WaitForTaskOptions := mkOptions {
  pollInterval : option Z;
  timeout : option Z;
  onStatus : option TaskStatusCallback;
  (** whether an [AbortSignal] was passed; what the signal says at each
      moment is part of the environment below *)
  signal : bool;
}.

(** How a pending [sleep] ends: its timer fires, or the signal's [abort]
    event fires first. *)
Inductive SleepEnd := TimerFires | AbortFires.

(** What the surroundings do during one iteration of the polling loop. *)
Record Poll := mkPoll {
  aborted_at_head : bool;          (* [signal.aborted] read at the loop head *)
  now_at_head : Z;                 (* [Date.now()] read by the timeout check *)
  during_getTask : list ManagerOp; (* other code run while [getTask] is awaited *)
  getTask : Result Task;           (* how [client.getTask(taskId)] settles *)
  onStatus_throws : option JsError;(* whether the call [onStatus(task)] throws *)
  getTaskResult : Result TaskResult; (* how [client.getTaskResult(taskId)] settles *)
  aborted_at_sleep : bool;         (* [signal.aborted] read when [sleep] starts *)
  during_sleep : list ManagerOp;   (* other code run while [sleep] is awaited *)
  sleep_end : SleepEnd;
}.

Record WaitEnv := mkEnv {
  startTime : Z;                   (* [Date.now()] at entry *)
  aborted_at_entry : bool;         (* [signal.aborted] at entry *)
  polls : list Poll;
}.

(** What [waitForTask] asks of the client and of the timers. *)
Inductive WaitEvent :=
  | GetTaskCalled
  | OnStatusCalled (task : Task)
  | GetTaskResultCalled
  | Slept (ms : Z).

(** [sleep(ms, signal)]: rejects with [new Error('Aborted')] when the
    signal is already aborted or when its abort event fires before the
    timer; otherwise resolves when the timer fires. *)
Definition sleep (signal_given aborted_now : bool) (ending : SleepEnd) : Result unit :=
  if signal_given && aborted_now then Throw (Error "Aborted")
  else match ending with
       | TimerFires => Ok tt
       | AbortFires => if signal_given then Throw (Error "Aborted") else Ok tt
       end.

(** [timeout && Date.now() - startTime > timeout] *)
Definition timeout_exceeded (timeout : option Z) (start now : Z) : option Z :=
  match timeout with
  | Some t => if negb (t =? 0)%Z && (t <? now - start)%Z then Some t else None
  | None => None
  end.

Definition terminal (s : TaskState) : bool :=
  match s with
  | completed | failed | canceled => true
  | pending | running => false
  end.

Definition Finished : Type := Result TaskResult * TaskStatusManager * list WaitEvent.

(** The [while (true)] loop.  It runs over the iterations the environment
    describes; [None] means that the loop is still polling when the
    description ends. *)
Fixpoint poll_loop (taskId : TaskId) (options : WaitForTaskOptions) (start : Z)
    (ps : list Poll) (m : TaskStatusManager) (events : list WaitEvent)
  : option Finished :=
  match ps with
  | [] => None
  | p :: ps' =>
      if signal options && aborted_at_head p
      then Some (Throw (TaskAbortedError taskId), m, events)
      else match timeout_exceeded (timeout options) start (now_at_head p) with
      | Some t => Some (Throw (TaskTimeoutError taskId t), m, events)
      | None =>
          let events := events ++ [GetTaskCalled] in
          let m := run_ops (during_getTask p) m in
          match getTask p with
          | Throw e => Some (Throw e, m, events)
          | Ok task =>
              let events :=
                match onStatus options with
                | Some _ => events ++ [OnStatusCalled task]
                | None => events
                end in
              match onStatus options ≫= (λ _, onStatus_throws p) with
              | Some e => Some (Throw e, m, events)
              | None =>
                  if terminal (state task)
                  then Some (getTaskResult p, m, events ++ [GetTaskResultCalled])
                  else
                    let ms := default 1000%Z (pollInterval options) in
                    match sleep (signal options) (aborted_at_sleep p) (sleep_end p) with
                    | Throw e => Some (Throw e, m, events ++ [Slept ms])
                    | Ok _ =>
                        poll_loop taskId options start ps'
                                  (run_ops (during_sleep p) m) (events ++ [Slept ms])
                    end
              end
          end
      end
  end.

(** [unsubscribe?.()] *)
Definition run_unsubscribe (u : option Unsubscribe) (m : TaskStatusManager)
  : TaskStatusManager :=
  match u with
  | Some u => unsubscribe u m
  | None => m
  end.

(** The subscription made at entry: [client.onTaskStatus(taskId, onStatus)]
    is [taskStatusManager.subscribe(taskId, onStatus)]. *)
Definition subscribe_onStatus (taskId : TaskId) (options : WaitForTaskOptions)
    (m : TaskStatusManager) : option Unsubscribe * TaskStatusManager :=
  match onStatus options with
  | Some callback =>
      (Some (subscribe taskId callback m).1, (subscribe taskId callback m).2)
  | None => (None, m)
  end.

(** [waitForTask(client, taskId, options)], the client's task-status
    manager being [m]. *)
Definition waitForTask (taskId : TaskId) (options : WaitForTaskOptions)
    (env : WaitEnv) (m : TaskStatusManager) : option Finished :=
  let unsub := (subscribe_onStatus taskId options m).1 in
  let m1 := (subscribe_onStatus taskId options m).2 in
  if signal options && aborted_at_entry env
  then Some (Throw (TaskAbortedError taskId), run_unsubscribe unsub m1, [])
  else match poll_loop taskId options (startTime env) (polls env) m1 [] with
       | Some (r, m2, events) => Some (r, run_unsubscribe unsub m2, events)
       | None => None
       end.

(** Whether an iteration leaves the loop, by a [return] or a [throw],
    instead of going round again. *)
Definition leaves_loop (options : WaitForTaskOptions) (start : Z) (p : Poll) : bool :=
  (signal options && aborted_at_head p)
  || bool_decide (is_Some (timeout_exceeded (timeout options) start (now_at_head p)))
  || match getTask p with
     | Throw _ => true
     | Ok task =>
         bool_decide (is_Some (onStatus options ≫= (λ _, onStatus_throws p)))
         || terminal (state task)
         || match sleep (signal options) (aborted_at_sleep p) (sleep_end p) with
            | Throw _ => true
            | Ok _ => false
            end
     end.

(** An iteration in which nothing else touches the manager, the task is
    in [state], and the sleep ends as [ending]. *)
Definition quiet_poll (now : Z) (state : TaskState) (ending : SleepEnd) : Poll :=
  {| aborted_at_head := false; now_at_head := now; during_getTask := [];
     getTask := Ok (mkTask "task-1" state None None); onStatus_throws := None;
     getTaskResult := Ok (mkTaskResult "task-1" (Some "42") None);
     aborted_at_sleep := false; during_sleep := []; sleep_end := ending |}.

End Tasks.

(* ===================================================================== *)
(** * client.ts *)
(* ===================================================================== *)

Module Client.

(** Tool arguments and results are passed through untouched; their JSON
    text stands for them. *)
Abbreviation Json := (string) (only parsing).

Record CallToolResult := mkCallToolResult {
  content : Json;
  isError : option bool;
  structuredContent : option Json;
  meta : option Json;
}.

(** What the wrapper asks of the SDK [Client] it owns, in order. *)
Inductive SdkCall :=
  | SdkClose
  | SdkCallTool (name : string) (args : option Json) (_meta : option Json)
  | SdkNotification (method : string) (requestId : string) (reason : option string).

Record DedalusMCPClient := mkClient {
  connected : bool;
  progressTracker : Progress.ProgressTracker;
  cancellationManager : Cancellation.CancellationManager string;
  taskStatusManager : Tasks.TaskStatusManager;
  sdk_calls : list SdkCall;
}.

Definition with_cancellationManager (cm : Cancellation.CancellationManager string)
    (c : DedalusMCPClient) : DedalusMCPClient :=
  {| connected := connected c; progressTracker := progressTracker c;
     cancellationManager := cm; taskStatusManager := taskStatusManager c;
     sdk_calls := sdk_calls c |}.

Definition sdk_call (call : SdkCall) (c : DedalusMCPClient) : DedalusMCPClient :=
  {| connected := connected c; progressTracker := progressTracker c;
     cancellationManager := cancellationManager c;
     taskStatusManager := taskStatusManager c;
     sdk_calls := sdk_calls c ++ [call] |}.

(** [isConnected()] *)
Definition isConnected (c : DedalusMCPClient) : bool := connected c.

(** [ensureConnected()] *)
Definition ensureConnected (c : DedalusMCPClient) : Result unit :=
  if connected c then Ok tt
  else Throw (MCPConnectionError "Not connected to MCP server. Call connect() first.").

(** ** close *)

(** [close()] up to its [await]: [None] when it returns at once because
    the client is not connected, otherwise the client once
    [this.client.close()] has been called. *)
Definition close_begin (c : DedalusMCPClient) : option DedalusMCPClient :=
  if negb (connected c) then None else Some (sdk_call SdkClose c).

(** The [finally] block of [close()]. *)
Definition close_finally (c : DedalusMCPClient) : DedalusMCPClient :=
  {| connected := false;
     progressTracker := Progress.clear (progressTracker c);
     cancellationManager := Cancellation.cancelAll (cancellationManager c);
     taskStatusManager := Tasks.clear (taskStatusManager c);
     sdk_calls := sdk_calls c |}.

(** A whole call of [close()], [transport] being how [this.client.close()]
    settles: the [finally] block runs either way, and a failure of the
    transport is then rethrown. *)
Definition close (transport : Result unit) (c : DedalusMCPClient)
  : Result unit * DedalusMCPClient :=
  match close_begin c with
  | None => (Ok tt, c)
  | Some c' => (transport, close_finally c')
  end.

(** ** callTool, callToolCancellable *)

(** [callTool(name, args, options)] up to its [await]. *)
Definition callTool_begin (name : string) (args _meta : option Json)
    (c : DedalusMCPClient) : Result DedalusMCPClient :=
  match ensureConnected c with
  | Throw e => Throw e
  | Ok _ => Ok (sdk_call (SdkCallTool name args _meta) c)
  end.

(** A promise as seen at some moment. *)
Inductive Promise (A : Type) :=
  | Pending
  | Settled (r : Result A).
Global Arguments Pending {A}.
Global Arguments Settled {A} r.

(** The object [{ promise, cancel, requestId }]; [cancel] is the closure
    [cancel_operation] below over [requestId]. *)
Record CancellableOperation := mkOperation {
  promise : Promise CallToolResult;
  requestId : string;
}.

Definition complete_request (requestId : string) (c : DedalusMCPClient) : DedalusMCPClient :=
  with_cancellationManager
    (Cancellation.complete requestId (cancellationManager c)) c.

(** [callToolCancellable(name, args)] up to the moment it returns.  The
    body of the async function runs until its first [await]:
    [this.ensureConnected()] stands before the [try], the call of
    [this.callTool] inside it. *)
Definition callToolCancellable (now : N) (name : string) (args : option Json)
    (c : DedalusMCPClient) : CancellableOperation * DedalusMCPClient :=
  let generated := Cancellation.generateRequestId now (cancellationManager c) in
  let requestId := generated.1 in
  let c := with_cancellationManager
             (Cancellation.create requestId generated.2).2 c in
  match ensureConnected c with
  | Throw e => ({| promise := Settled (Throw e); requestId := requestId |}, c)
  | Ok _ =>
      match callTool_begin name args None c with
      | Throw e =>
          ({| promise := Settled (Throw e); requestId := requestId |},
           complete_request requestId c)
      | Ok c' => ({| promise := Pending; requestId := requestId |}, c')
      end
  end.

(** The rest of the async function, run when the awaited [callTool]
    settles with [outcome]: both the [try] and the [catch] branch call
    [complete(requestId)], then return the result or rethrow. *)
Definition callToolCancellable_settle (op : CancellableOperation)
    (outcome : Result CallToolResult) (c : DedalusMCPClient)
  : CancellableOperation * DedalusMCPClient :=
  ({| promise := Settled outcome; requestId := requestId op |},
   complete_request (requestId op) c).

(** The returned [cancel()]. *)
Definition cancel_operation (op : CancellableOperation) (c : DedalusMCPClient)
  : DedalusMCPClient :=
  let cancelled := Cancellation.cancel (requestId op) (cancellationManager c) in
  if cancelled.1
  then sdk_call (SdkNotification "notifications/cancelled" (requestId op)
                                 (Some "User cancelled"))
                (with_cancellationManager cancelled.2 c)
  else c.

(** ** Pagination helpers *)

Record Page (Item : Type) := mkPage {
  items : list Item;
  nextCursor : option string;
}.
Global Arguments mkPage {Item} _ _.
Global Arguments items {Item} _.
Global Arguments nextCursor {Item} _.

Section pagination.
(** The server behind the SDK: a state and, for a paged request with
    the given [cursor] parameter, how the request settles and the next
    state. *)
Context {Item Server : Type}.
Variable sdk_list : Server → option string → Result (Page Item) * Server.

(** [listTools(cursor)], [listResources(cursor)], [listPrompts(cursor)]:
    [this.client.listX(cursor ? { cursor } : undefined)] once connected.
    Returns the cursor parameter sent, if a request was sent. *)
Definition list_page (c : DedalusMCPClient) (cursor : option string) (srv : Server)
  : Result (Page Item) * Server * list (option string) :=
  match ensureConnected c with
  | Throw e => (Throw e, srv, [])
  | Ok _ =>
      let param := if truthy cursor then cursor else None in
      (sdk_list srv param, [param])
  end.

(** [do { ... } while (cursor)].  [None]: out of fuel, the loop is still
    running.  The result comes with the server's state and the cursor
    parameters of the requests sent. *)
Fixpoint listAll_loop (fuel : nat) (c : DedalusMCPClient) (cursor : option string)
    (acc : list Item) (srv : Server) (sent : list (option string))
  : option (Result (list Item) * Server * list (option string)) :=
  match fuel with
  | 0 => None
  | S fuel' =>
      match list_page c cursor srv with
      | (Throw e, srv', req) => Some (Throw e, srv', sent ++ req)
      | (Ok result, srv', req) =>
          let acc := acc ++ items result in
          let cursor := nextCursor result in
          if truthy cursor
          then listAll_loop fuel' c cursor acc srv' (sent ++ req)
          else Some (Ok acc, srv', sent ++ req)
      end
  end.

Definition listAll (fuel : nat) (c : DedalusMCPClient) (srv : Server)
  : option (Result (list Item) * Server * list (option string)) :=
  listAll_loop fuel c None [] srv [].

(** [serves srv param pages srv']: asked with [param] in state [srv], and
    then with each page's cursor in turn, the server answers with exactly
    the pages [pages] and ends in state [srv']; every page but the last
    carries a non-empty cursor, the last one no cursor or the empty one. *)
Inductive serves : Server → option string → list (Page Item) → Server → Prop :=
  | serves_last srv param page srv' :
      sdk_list srv param = (Ok page, srv') →
      nextCursor page = None ∨ nextCursor page = Some EmptyString →
      serves srv param [page] srv'
  | serves_more srv param page cursor srv1 pages srv' :
      sdk_list srv param = (Ok page, srv1) →
      nextCursor page = Some cursor → cursor ≠ EmptyString →
      serves srv1 (Some cursor) pages srv' →
      serves srv param (page :: pages) srv'.
End pagination.

(** The three paged primitives of the SDK. *)
Record Sdk (Server Tool Resource Prompt : Type) := mkSdk {
  sdk_listTools : Server → option string → Result (Page Tool) * Server;
  sdk_listResources : Server → option string → Result (Page Resource) * Server;
  sdk_listPrompts : Server → option string → Result (Page Prompt) * Server;
}.
Global Arguments sdk_listTools {_ _ _ _} _.
Global Arguments sdk_listResources {_ _ _ _} _.
Global Arguments sdk_listPrompts {_ _ _ _} _.

Section listAll.
Context {Server Tool Resource Prompt : Type}.
Variable sdk : Sdk Server Tool Resource Prompt.

Definition listAllTools := listAll (sdk_listTools sdk).
Definition listAllResources := listAll (sdk_listResources sdk).
Definition listAllPrompts := listAll (sdk_listPrompts sdk).
End listAll.

(** A client right after construction and [connect()], or never
    connected. *)
Definition new_client (connected : bool) : DedalusMCPClient :=
  {| connected := connected;
     progressTracker := Progress.empty;
     cancellationManager := Cancellation.empty;
     taskStatusManager := Tasks.empty;
     sdk_calls := [] |}.

(** A connected client with one tool call in flight, one progress
    callback and one task-status subscription. *)
Definition busy_client : DedalusMCPClient :=
  let c := (callToolCancellable 5 "long_operation" None (new_client true)).2 in
  {| connected := connected c;
     progressTracker := Progress.register "progress-5-0" 3 (progressTracker c);
     cancellationManager := cancellationManager c;
     taskStatusManager := (Tasks.subscribe "task-1" 7 (taskStatusManager c)).2;
     sdk_calls := sdk_calls c |}.

(** A server for examples: its state counts the requests answered; it
    answers the same pages to all three primitives, whatever the cursor:
    [[1;2]] with cursor [x], then [[3]] with the empty cursor, then pages
    [[9]] with cursor [more] for ever. *)
Definition counting_server (n : nat) (_ : option string) : Result (Page nat) * nat :=
  (Ok match n with
      | 0 => mkPage [1; 2] (Some "x")
      | 1 => mkPage [3] (Some EmptyString)
      | _ => mkPage [9] (Some "more")
      end,
   S n).

Definition counting_sdk : Sdk nat nat nat nat :=
  mkSdk _ _ _ _ counting_server counting_server counting_server.

End Client.

(* ===================================================================== *)
(** * manager.ts *)
(* ===================================================================== *)

Module Manager.

Abbreviation Json := (string) (only parsing).
Abbreviation Dict := (list (string * string)) (only parsing).

(** [MCPServerConfig]: every field is optional. *)
Record MCPServerConfig := mkConfig {
  command : option string;
  args : option (list string);
  env : option Dict;
  cwd : option string;
  url : option string;
  headers : option Dict;
}.

(** The options object handed to [DedalusMCPClient.fromHTTP] or
    [.fromStdio]; it starts as a copy of [defaultClientOptions], a
    [Partial] of both option types. *)
Record TransportOptions := mkTransportOptions {
  o_command : option string;
  o_args : option (list string);
  o_env : option Dict;
  o_cwd : option string;
  o_url : option string;
  o_headers : option Dict;
  o_clientInfo : option (string * string);
  o_capabilities : option Json;
  o_connectionTimeout : option Z;
  o_requestTimeout : option Z;
}.

Definition no_options : TransportOptions :=
  mkTransportOptions None None None None None None None None None None.

(** Which factory [createClient] calls, and with what. *)
Inductive Factory :=
  | FromHTTP (httpOptions : TransportOptions)
  | FromStdio (stdioOptions : TransportOptions).

(** A [DedalusMCPClient] object, named by its identity. *)
Abbreviation ClientRef := (nat) (only parsing).

Record MCPClientManager := mkClientManager {
  clients : gmap string ClientRef;
  defaultClientOptions : TransportOptions;
  parallelConnect : bool;
  maxConcurrent : nat;
}.

Definition with_clients (cs : gmap string ClientRef) (mgr : MCPClientManager)
  : MCPClientManager :=
  {| clients := cs; defaultClientOptions := defaultClientOptions mgr;
     parallelConnect := parallelConnect mgr; maxConcurrent := maxConcurrent mgr |}.

(** [x !== undefined ? x : inherited] *)
Definition override {A} (x inherited : option A) : option A :=
  match x with Some _ => x | None => inherited end.

Definition httpOptions (defaults : TransportOptions) (config : MCPServerConfig)
  : TransportOptions :=
  {| o_command := o_command defaults; o_args := o_args defaults;
     o_env := o_env defaults; o_cwd := o_cwd defaults;
     o_url := url config;
     o_headers := override (headers config) (o_headers defaults);
     o_clientInfo := o_clientInfo defaults; o_capabilities := o_capabilities defaults;
     o_connectionTimeout := o_connectionTimeout defaults;
     o_requestTimeout := o_requestTimeout defaults |}.

Definition stdioOptions (defaults : TransportOptions) (config : MCPServerConfig)
  : TransportOptions :=
  {| o_command := command config;
     o_args := override (args config) (o_args defaults);
     o_env := override (env config) (o_env defaults);
     o_cwd := override (cwd config) (o_cwd defaults);
     o_url := o_url defaults; o_headers := o_headers defaults;
     o_clientInfo := o_clientInfo defaults; o_capabilities := o_capabilities defaults;
     o_connectionTimeout := o_connectionTimeout defaults;
     o_requestTimeout := o_requestTimeout defaults |}.

Definition config_error : JsError :=
  Error ("Server config must have either " +:+ dquote +:+ "command" +:+ dquote
         +:+ " or " +:+ dquote +:+ "url" +:+ dquote).

Definition exists_error (name : string) : JsError :=
  Error ("Server " +:+ dquote +:+ name +:+ dquote +:+ " already exists").

Section connecting.
(** How constructing and connecting a client ends ([fromHTTP] and
    [fromStdio] create the transport, the client, and connect). *)
Variable connect : Factory → Result ClientRef.

(** [createClient(config)]; the second component lists the factory
    calls made. *)
Definition createClient (mgr : MCPClientManager) (config : MCPServerConfig)
  : Result ClientRef * list Factory :=
  if truthy (url config) then
    let f := FromHTTP (httpOptions (defaultClientOptions mgr) config) in
    (connect f, [f])
  else if truthy (command config) then
    let f := FromStdio (stdioOptions (defaultClientOptions mgr) config) in
    (connect f, [f])
  else (Throw config_error, []).

(** [addServer(name, config)]: the outcome, the manager afterwards, and
    the factory calls made. *)
Definition addServer (name : string) (config : MCPServerConfig)
    (mgr : MCPClientManager) : Result ClientRef * MCPClientManager * list Factory :=
  if bool_decide (is_Some (clients mgr !! name))
  then (Throw (exists_error name), mgr, [])
  else
    match createClient mgr config with
    | (Ok client, made) =>
        (Ok client, with_clients (<[name := client]> (clients mgr)) mgr, made)
    | (Throw e, made) => (Throw e, mgr, made)
    end.
End connecting.

(** [hasServer(name)] *)
Definition hasServer (name : string) (mgr : MCPClientManager) : bool :=
  bool_decide (is_Some (clients mgr !! name)).

(** ** Routing *)

(** [s.split(sep)] for a one-character separator: never empty. *)
Fixpoint split (sep : Ascii.ascii) (s : string) : list string :=
  match s with
  | EmptyString => [EmptyString]
  | String c s' =>
      if decide (c = sep) then EmptyString :: split sep s'
      else match split sep s' with
           | part :: parts => String c part :: parts
           | [] => [String c EmptyString]
           end
  end.

(** [parts.join(sep)] *)
Fixpoint join (sep : string) (parts : list string) : string :=
  match parts with
  | [] => EmptyString
  | [part] => part
  | part :: parts' => part +:+ sep +:+ join sep parts'
  end.

Definition dot : Ascii.ascii := Ascii.ascii_of_nat 46.

(** What [callTool] does: it throws, or it hands the call to a client. *)
Inductive CallOutcome :=
  | Throws (e : JsError)
  | Delegates (client : ClientRef) (toolName : string) (args : option Json).

(** [callTool(name, args)] *)
Definition callTool (name : string) (args : option Json) (mgr : MCPClientManager)
  : CallOutcome :=
  match split dot name with
  | serverName :: toolNameParts =>
      let toolName := join (String dot EmptyString) toolNameParts in
      if bool_decide (serverName = EmptyString) || bool_decide (length toolNameParts = 0)
      then Throws (Error ("Invalid tool name: " +:+ name))
      else match clients mgr !! serverName with
           | None => Throws (Error ("Unknown server: " +:+ serverName))
           | Some client => Delegates client toolName args
           end
  | [] => Throws (Error ("Invalid tool name: " +:+ name))
  end.

(** Whether the character occurs in the string. *)
Fixpoint contains (c : Ascii.ascii) (s : string) : bool :=
  match s with
  | EmptyString => false
  | String c' s' => bool_decide (c' = c) || contains c s'
  end.

(** A manager as its constructor leaves it, with the given registry. *)
Definition manager_with (clients : gmap string nat) : MCPClientManager :=
  {| clients := clients; defaultClientOptions := no_options;
     parallelConnect := true; maxConcurrent := 10 |}.

Definition config_of (command url : option string) : MCPServerConfig :=
  {| command := command; args := None; env := None; cwd := None;
     url := url; headers := None |}.

End Manager.

(* ===================================================================== *)
(** * mcp-integration.ts *)
(* ===================================================================== *)

Module Runner.

Abbreviation Json := (string) (only parsing).

Record Implementation := mkImplementation {
  impl_name : string;
  impl_version : string;
}.

Record Tool := mkTool {
  name : string;
  description : option string;
  inputSchema : option Json;
}.

(** A [DedalusMCPClient] as [aggregateMCPTools] meets it: the object's
    identity and what its two methods answer when the loop calls them. *)
Record ClientView := mkClientView {
  ref : nat;
  getServerInfo : option Implementation;
  listAllTools : Result (list Tool);
}.

Record MCPToolInfo := mkToolInfo {
  tool : Tool;
  client : nat;
  serverName : string;
  originalName : string;
}.

(** [serverInfo?.name ?? 'unknown'] *)
Definition serverName_of (c : ClientView) : string :=
  match getServerInfo c with
  | Some serverInfo => impl_name serverInfo
  | None => "unknown"
  end.

(** [`${serverName}.${tool.name}`] *)
Definition namespacedName (serverName : string) (t : Tool) : string :=
  serverName +:+ "." +:+ name t.

Definition tool_info (c : ClientView) (t : Tool) : MCPToolInfo :=
  let serverName := serverName_of c in
  {| tool := {| name := namespacedName serverName t;
                description :=
                  Some ("[" +:+ serverName +:+ "] " +:+ default EmptyString (description t));
                inputSchema := inputSchema t |};
     client := ref c;
     serverName := serverName;
     originalName := name t |}.

(** The inner loop: [toolMap.set(namespacedName, ...)] for each tool. *)
Definition add_tools (c : ClientView) (tools : list Tool)
    (toolMap : gmap string MCPToolInfo) : gmap string MCPToolInfo :=
  foldl (λ toolMap t, <[namespacedName (serverName_of c) t := tool_info c t]> toolMap)
        toolMap tools.

(** The outer loop; a client whose [listAllTools()] rejects ends it. *)
Fixpoint aggregate_loop (clients : list ClientView) (toolMap : gmap string MCPToolInfo)
  : Result (gmap string MCPToolInfo) :=
  match clients with
  | [] => Ok toolMap
  | c :: clients' =>
      match listAllTools c with
      | Throw e => Throw e
      | Ok tools => aggregate_loop clients' (add_tools c tools toolMap)
      end
  end.

(** [aggregateMCPTools(clients)] *)
Definition aggregateMCPTools (clients : list ClientView)
  : Result (gmap string MCPToolInfo) :=
  aggregate_loop clients ∅.

(** [isMCPTool(toolName, toolMap)] *)
Definition isMCPTool (toolName : string) (toolMap : gmap string MCPToolInfo) : bool :=
  bool_decide (is_Some (toolMap !! toolName)).

(** Two clients that report the same identity and one that reports
    none, as in the collision the aggregation resolves by overwriting. *)
Definition fs_client : ClientView :=
  {| ref := 1; getServerInfo := Some (mkImplementation "fs" "1.0");
     listAllTools := Ok [mkTool "run" (Some "first") None; mkTool "read" None None] |}.

Definition anonymous_client : ClientView :=
  {| ref := 2; getServerInfo := None;
     listAllTools := Ok [mkTool "run" None None] |}.

Definition later_fs_client : ClientView :=
  {| ref := 3; getServerInfo := Some (mkImplementation "fs" "2.0");
     listAllTools := Ok [mkTool "run" (Some "second") None] |}.

Definition example_clients : list ClientView :=
  [fs_client; anonymous_client; later_fs_client].

End Runner.

(* ===================================================================== *)
(** * cancellation.ts, progress.ts, tasks.ts: token generation and dispatch *)
(* ===================================================================== *)

Module Registries.

(** Calls on a CancellationManager. *)
Inductive ManagerCall :=
  | CallGenerateRequestId (now : N)
  | CallCreate (requestId : string)
  | CallComplete (requestId : string)
  | CallCancel (requestId : string)
  | CallCancelAll.

(** The ids that the calls of [generateRequestId()] in a sequence of calls
    return, in order. *)
Fixpoint generateRequestIds (calls : list ManagerCall)
    (m : Cancellation.CancellationManager string) : list string :=
  match calls with
  | [] => []
  | CallGenerateRequestId now :: calls' =>
      (Cancellation.generateRequestId now m).1
      :: generateRequestIds calls' (Cancellation.generateRequestId now m).2
  | CallCreate requestId :: calls' =>
      generateRequestIds calls' (Cancellation.create requestId m).2
  | CallComplete requestId :: calls' =>
      generateRequestIds calls' (Cancellation.complete requestId m)
  | CallCancel requestId :: calls' =>
      generateRequestIds calls' (Cancellation.cancel requestId m).2
  | CallCancelAll :: calls' =>
      generateRequestIds calls' (Cancellation.cancelAll m)
  end.

(** Calls on a ProgressTracker. *)
Inductive TrackerCall :=
  | CallGenerateToken (now : N)
  | CallRegister (token : string) (callback : nat)
  | CallUnregister (token : string)
  | CallClear.

(** The tokens that the calls of [generateToken()] in a sequence of calls
    return, in order. *)
Fixpoint generateTokens (calls : list TrackerCall) (t : Progress.ProgressTracker)
  : list string :=
  match calls with
  | [] => []
  | CallGenerateToken now :: calls' =>
      (Progress.generateToken now t).1
      :: generateTokens calls' (Progress.generateToken now t).2
  | CallRegister token callback :: calls' =>
      generateTokens calls' (Progress.register token callback t)
  | CallUnregister token :: calls' =>
      generateTokens calls' (Progress.unregister token t)
  | CallClear :: calls' =>
      generateTokens calls' (Progress.clear t)
  end.

(** [ProgressNotification] and [ProgressInfo]; the numbers are passed on
    untouched. *)
Record ProgressNotification := mkNotification {
  progressToken : string;
  progress : Z;
  total : option Z;
  message : option string;
}.

Record ProgressInfo := mkInfo {
  info_progress : Z;
  info_total : option Z;
  info_message : option string;
}.

Definition info_of (n : ProgressNotification) : ProgressInfo :=
  {| info_progress := progress n; info_total := total n; info_message := message n |}.

(** [handleProgress(notification)]: how the call ends and the callback
    invocations made.  [call] says what a callback does when invoked; the
    invocation is not wrapped in a [try]. *)
Definition handleProgress (call : nat → ProgressInfo → Result unit)
    (n : ProgressNotification) (t : Progress.ProgressTracker)
  : Result unit * list (nat * ProgressInfo) :=
  match Progress.callbacks t !! progressToken n with
  | Some callback => (call callback (info_of n), [(callback, info_of n)])
  | None => (Ok tt, [])
  end.

(** The loop of [handleStatus(task)] over the callbacks of the task's
    [Set], with callbacks that may throw: each call sits in
    [try { callback(task) } catch { }].  Returns how the loop ends and the
    callbacks invoked. *)
Fixpoint deliver (call : nat → Tasks.Task → Result unit) (task : Tasks.Task)
    (callbacks : list nat) : Result unit * list nat :=
  match callbacks with
  | [] => (Ok tt, [])
  | callback :: callbacks' =>
      match call callback task with
      | Ok _ | Throw _ =>
          ((deliver call task callbacks').1, callback :: (deliver call task callbacks').2)
      end
  end.

(** [handleStatus(task)] *)
Definition handleStatus (call : nat → Tasks.Task → Result unit) (task : Tasks.Task)
    (m : Tasks.TaskStatusManager) : Result unit * list nat :=
  match Tasks.callbacks m !! Tasks.id task with
  | Some s => deliver call task (Tasks.set_at s m)
  | None => (Ok tt, [])
  end.

End Registries.

(* ===================================================================== *)
(** * client.ts: connect, progress-aware calls, cancelRequest *)
(* ===================================================================== *)

Module ClientCalls.
Import Client.


Definition with_connected (b : bool) (c : DedalusMCPClient) : DedalusMCPClient :=
  {| connected := b; progressTracker := progressTracker c;
     cancellationManager := cancellationManager c;
     taskStatusManager := taskStatusManager c;
     sdk_calls := sdk_calls c |}.

(** ** connect *)

(** [error.message] *)
Definition message_of (e : JsError) : string :=
  match e with
  | Error message | MCPConnectionError message | MCPTimeoutError message _ => message
  | TaskTimeoutError taskId timeoutMs =>
      "Task " +:+ taskId +:+ " timed out after " +:+ pretty timeoutMs +:+ "ms"
  | TaskAbortedError taskId => "Wait for task " +:+ taskId +:+ " was aborted"
  end.

(** Which side of [Promise.race] settles first: the handshake
    [this.client.connect(this.transport)], and how, or the timer. *)
Inductive Race :=
  | HandshakeFirst (handshake : Result unit)
  | TimerFirst.

(** What [connect()] asks of the SDK client and of the transport. *)
Inductive ConnectCall := SdkConnect | TransportClose.

(** [connect()], with the configured [connectionTimeout];
    [transport_close] is how [this.transport.close()] settles if it is
    called. *)
Definition connect (connectionTimeout : Z) (race : Race) (transport_close : Result unit)
    (c : DedalusMCPClient) : Result unit * DedalusMCPClient * list ConnectCall :=
  if connected c then (Ok tt, c, [])
  else
    let raced :=
      match race with
      | HandshakeFirst handshake => handshake
      | TimerFirst => Throw (MCPTimeoutError "Connection timed out" connectionTimeout)
      end in
    match raced with
    | Ok _ => (Ok tt, with_connected true c, [SdkConnect])
    | Throw (MCPTimeoutError message timeoutMs) =>
        (* [transport.close()] in its own [try]/[catch], then rethrow *)
        match transport_close with
        | Ok _ | Throw _ =>
            (Throw (MCPTimeoutError message timeoutMs), c, [SdkConnect; TransportClose])
        end
    | Throw e =>
        (Throw (MCPConnectionError ("Failed to connect to MCP server: " +:+ message_of e)),
         c, [SdkConnect])
    end.

(** ** callToolWithProgress *)





(** ** cancelRequest *)

(** [cancelRequest(requestId, reason)] *)
Definition cancelRequest (requestId : string) (reason : option string)
    (c : DedalusMCPClient) : DedalusMCPClient :=
  let cancelled := Cancellation.cancel requestId (cancellationManager c) in
  if cancelled.1
  then sdk_call (SdkNotification "notifications/cancelled" requestId reason)
                (with_cancellationManager cancelled.2 c)
  else c.

(** A way to ask for the cancellation of an operation: its own
    [cancel()], or [cancelRequest] with its id. *)
Inductive CancelAttempt :=
  | ViaCancel
  | ViaCancelRequest (reason : option string).

Definition attempt (op : CancellableOperation) (c : DedalusMCPClient) (a : CancelAttempt)
  : DedalusMCPClient :=
  match a with
  | ViaCancel => cancel_operation op c
  | ViaCancelRequest reason => cancelRequest (requestId op) reason c
  end.

(** How many cancellation notifications for the request are in a log. *)
Fixpoint cancellations_of (requestId : string) (calls : list SdkCall) : nat :=
  match calls with
  | [] => 0
  | SdkNotification method id _ :: calls' =>
      (if bool_decide (method = "notifications/cancelled" ∧ id = requestId) then 1 else 0)
      + cancellations_of requestId calls'
  | _ :: calls' => cancellations_of requestId calls'
  end.

(** ** Pagination against servers that fail or never stop *)

Section more_pagination.
Context {Item Server : Type}.
Variable sdk_list : Server → option string → Result (Page Item) * Server.

(** [fails_after srv param n e srv']: asked with [param] in state [srv],
    the server answers [n] pages that each carry a non-empty cursor, and
    then rejects the next request with [e], ending in state [srv']. *)
Inductive fails_after : Server → option string → nat → JsError → Server → Prop :=
  | fails_now srv param e srv' :
      sdk_list srv param = (Throw e, srv') →
      fails_after srv param 0 e srv'
  | fails_later srv param page cursor srv1 n e srv' :
      sdk_list srv param = (Ok page, srv1) →
      nextCursor page = Some cursor → cursor ≠ EmptyString →
      fails_after srv1 (Some cursor) n e srv' →
      fails_after srv param (S n) e srv'.
End more_pagination.

(** A server that answers every request with one item and the same
    non-empty cursor. *)
Definition cycling_server (n : nat) (_ : option string) : Result (Page nat) * nat :=
  (Ok (mkPage [n] (Some "again")), S n).

(** A server whose third request fails. *)
Definition failing_server (n : nat) (_ : option string) : Result (Page nat) * nat :=
  (match n with
   | 0 => Ok (mkPage [1] (Some "a"))
   | 1 => Ok (mkPage [2] (Some "b"))
   | _ => Throw (Error "page unavailable")
   end, S n).

End ClientCalls.

(* ===================================================================== *)
(** * manager.ts: bringing servers up and down, reading, listing *)
(* ===================================================================== *)

Module Bringup.
Import Manager.

(** ** loadConfig *)

(** [entries.slice(i, i + n)] *)
Definition slice {A} (i n : nat) (l : list A) : list A := take n (drop i l).

(** The loop of [connectParallel] that cuts the entries into chunks:
    [for (let i = 0; i < entries.length; i += maxConcurrent)
       chunks.push(entries.slice(i, i + maxConcurrent))].
    [None]: out of fuel, the loop is still running. *)
Fixpoint chunk_loop {A} (fuel maxConcurrent : nat) (entries : list A) (i : nat)
    (chunks : list (list A)) : option (list (list A)) :=
  if bool_decide (i < length entries) then
    match fuel with
    | 0 => None
    | S fuel' =>
        chunk_loop fuel' maxConcurrent entries (i + maxConcurrent)
                   (chunks ++ [slice i maxConcurrent entries])
    end
  else Some chunks.

(** What a bring-up leaves behind: the manager, the factory calls made,
    and the failures written to [console.error]. *)
Record Brought := mkBrought {
  manager : MCPClientManager;
  made : list Factory;
  logged : list (string * JsError);
}.

Section bringing_up.
(** How constructing and connecting the client of the named server ends. *)
Variable connect : string → Factory → Result nat.

(** One [addServer(name, config)] of a chunk up to its [await]: the test
    [this.clients.has(name)] and the start of the connection, whose
    outcome is known later. *)
Definition start_server (mgr : MCPClientManager) (entry : string * MCPServerConfig)
  : string * (Result nat * list Factory) :=
  (entry.1,
   if bool_decide (is_Some (clients mgr !! entry.1))
   then (Throw (exists_error entry.1), [])
   else createClient (connect entry.1) mgr entry.2).

(** The same call resumed: [this.clients.set(name, client)], or the
    [catch] of [connectParallel] that logs the failure. *)
Definition finish_server (b : Brought) (started : string * (Result nat * list Factory))
  : Brought :=
  match started.2.1 with
  | Ok client =>
      {| manager := with_clients (<[started.1 := client]> (clients (manager b))) (manager b);
         made := made b ++ started.2.2;
         logged := logged b |}
  | Throw e =>
      {| manager := manager b;
         made := made b ++ started.2.2;
         logged := logged b ++ [(started.1, e)] |}
  end.

(** One chunk under [Promise.all]: the calls of the chunk all run to
    their [await] before any of them resumes; they are resumed here in
    the order of the chunk. *)
Definition connect_chunk (b : Brought) (chunk : list (string * MCPServerConfig)) : Brought :=
  foldl finish_server b (start_server (manager b) <$> chunk).

(** [connectParallel(entries)] *)
Definition connectParallel (fuel : nat) (entries : list (string * MCPServerConfig))
    (mgr : MCPClientManager) : option Brought :=
  match chunk_loop fuel (maxConcurrent mgr) entries 0 [] with
  | None => None
  | Some chunks => Some (foldl connect_chunk (mkBrought mgr [] []) chunks)
  end.

(** The sequential branch of [loadConfig]:
    [for (const [name, serverConfig] of entries) await this.addServer(...)]. *)
Fixpoint connectSequential (entries : list (string * MCPServerConfig))
    (b : Brought) : Result unit * Brought :=
  match entries with
  | [] => (Ok tt, b)
  | (name, config) :: entries' =>
      match addServer (connect name) name config (manager b) with
      | (Ok _, mgr, factories) =>
          connectSequential entries'
            {| manager := mgr; made := made b ++ factories; logged := logged b |}
      | (Throw e, mgr, factories) =>
          (Throw e, {| manager := mgr; made := made b ++ factories; logged := logged b |})
      end
  end.

(** [loadConfig(config)], [entries] being [Object.entries(config.mcpServers)]. *)
Definition loadConfig (fuel : nat) (entries : list (string * MCPServerConfig))
    (mgr : MCPClientManager) : option (Result unit * Brought) :=
  if parallelConnect mgr
  then match connectParallel fuel entries mgr with
       | Some b => Some (Ok tt, b)
       | None => None
       end
  else Some (connectSequential entries (mkBrought mgr [] [])).

(** What the bring-up of one server, taken alone, would give. *)
Definition connected_as (mgr : MCPClientManager) (name : string) (config : MCPServerConfig)
  : option nat :=
  match (createClient (connect name) mgr config).1 with
  | Ok client => Some client
  | Throw _ => None
  end.
End bringing_up.

(** ** removeServer *)

(** [removeServer(name)]: the outcome, the manager afterwards, and the
    clients asked to close; [close] is how [client.close()] settles. *)
Definition removeServer (close : nat → Result unit) (name : string) (mgr : MCPClientManager)
  : Result bool * MCPClientManager * list nat :=
  match clients mgr !! name with
  | None => (Ok false, mgr, [])
  | Some client =>
      match close client with
      | Ok _ => (Ok true, with_clients (delete name (clients mgr)) mgr, [client])
      | Throw e => (Throw e, mgr, [client])
      end
  end.

(** ** readResource *)

(** [readResource(uri)] over the entries of [this.clients] in the order
    the [Map] iterates them (insertion order): the outcome, tagged with
    the server's name, and the clients asked. *)
Fixpoint readResource (read : nat → string → Result Json) (entries : list (string * nat))
    (uri : string) : Result (Json * string) * list nat :=
  match entries with
  | [] => (Throw (Error ("Resource not found: " +:+ uri)), [])
  | (name, client) :: entries' =>
      match read client uri with
      | Ok result => (Ok (result, name), [client])
      | Throw _ =>
          ((readResource read entries' uri).1, client :: (readResource read entries' uri).2)
      end
  end.

(** ** listAllTools *)

(** An entry of the aggregated listing: the tool, renamed, and [server]. *)
Record ListedTool := mkListed {
  listed : Runner.Tool;
  server : string;
}.

Definition list_entry (name : string) (t : Runner.Tool) : ListedTool :=
  {| listed := {| Runner.name := name +:+ "." +:+ Runner.name t;
                  Runner.description :=
                    Some ("[" +:+ name +:+ "] "
                          +:+ default EmptyString (Runner.description t));
                  Runner.inputSchema := Runner.inputSchema t |};
     server := name |}.

(** [listAllTools()] over the entries of [this.clients] in iteration
    order; [list_tools] is how [client.listAllTools()] settles. *)
Fixpoint listAllTools (list_tools : nat → Result (list Runner.Tool))
    (entries : list (string * nat)) : Result (list ListedTool) :=
  match entries with
  | [] => Ok []
  | (name, client) :: entries' =>
      match list_tools client with
      | Throw e => Throw e
      | Ok tools =>
          match listAllTools list_tools entries' with
          | Throw e => Throw e
          | Ok rest => Ok ((list_entry name <$> tools) ++ rest)
          end
      end
  end.

(** ** expandEnvVar *)

Definition dollar : Ascii.ascii := Ascii.ascii_of_nat 36.
Definition open_brace : Ascii.ascii := Ascii.ascii_of_nat 123.
Definition close_brace : Ascii.ascii := Ascii.ascii_of_nat 125.

(** The longest prefix without a closing brace, and the rest: what
    [[^}]+] takes when it takes all it can. *)
Fixpoint span_name (s : string) : string * string :=
  match s with
  | EmptyString => (EmptyString, EmptyString)
  | String c s' =>
      if decide (c = close_brace) then (EmptyString, s)
      else (String c (span_name s').1, (span_name s').2)
  end.

(** A match of [\$\{([^}]+)\}] at the start of [s]: the captured name
    and the text after the match.  The name is the longest run without
    a closing brace; a shorter run is followed by a character of the run,
    not by the brace the pattern needs next. *)
Definition match_here (s : string) : option (string * string) :=
  match s with
  | String c1 (String c2 s') =>
      if decide (c1 = dollar ∧ c2 = open_brace) then
        match span_name s' with
        | (String c name, String _ rest) => Some (String c name, rest)
        | _ => None
        end
      else None
  | _ => None
  end.

(** [value.replace(/\$\{([^}]+)\}/g, (_, name) => process.env[name] ?? '')]:
    matches are looked for from left to right, and the search goes on
    after each match; the replacement text is not searched. *)
Fixpoint expand (fuel : nat) (env : gmap string string) (s : string) : string :=
  match fuel with
  | 0 => s
  | S fuel' =>
      match match_here s with
      | Some (name, rest) => default EmptyString (env !! name) +:+ expand fuel' env rest
      | None =>
          match s with
          | EmptyString => EmptyString
          | String c s' => String c (expand fuel' env s')
          end
      end
  end.

(** [expandEnvVar(value)], [env] being [process.env]. *)
Definition expandEnvVar (env : gmap string string) (value : string) : string :=
  expand (S (String.length value)) env value.

End Bringup.

(* ===================================================================== *)
(** * runner/mcp-integration.ts: routing and resource context *)
(* ===================================================================== *)

Module Routing.
Import Runner.

(** A content item of a tool result, as the guards of [extractText]
    look at it: its [type], and the properties it may own. *)
Record Content := mkContent {
  type : string;
  text : option string;
  data : option string;
  mimeType : option string;
  resource : option (option string);   (* [resource], and its [uri] *)
}.

Record CallToolResult := mkResult {
  content : option (list Content);
  isError : option bool;
  structuredContent : option Json;
}.

Definition newline : string := String (Ascii.ascii_of_nat 10) EmptyString.

(** The callback of [content.map(...)] in [extractText]. *)
Definition describe (c : Content) : string :=
  if bool_decide (is_Some (text c)) && bool_decide (type c = "text")
  then default EmptyString (text c)
  else if bool_decide (is_Some (data c)) && bool_decide (type c = "image")
  then "[Image: " +:+ default "unknown" (mimeType c) +:+ "]"
  else if bool_decide (is_Some (data c)) && bool_decide (type c = "audio")
  then "[Audio: " +:+ default "unknown" (mimeType c) +:+ "]"
  else if bool_decide (is_Some (resource c)) && bool_decide (type c = "resource")
  then "[Resource: " +:+ default "unknown" (resource c ≫= id) +:+ "]"
  else "[Unknown content]".

(** [extractText(content)] *)
Definition extractText (content : option (list Content)) : string :=
  match content with
  | None => EmptyString
  | Some items => Manager.join newline (describe <$> items)
  end.

(** [formatToolResult(result)]; [stringify] is
    [JSON.stringify(_, null, 2)]. *)
Definition formatToolResult (stringify : Json → string) (result : CallToolResult) : string :=
  match isError result with
  | Some true => "Error: " +:+ extractText (content result)
  | _ =>
      match structuredContent result with
      | Some structured => stringify structured
      | None => extractText (content result)
      end
  end.

(** [routeMCPToolCall(toolName, args, toolMap)]: the outcome and the
    calls made, each a client with the name and arguments it was given;
    [callTool] is how [client.callTool(name, args)] settles. *)
Definition routeMCPToolCall (stringify : Json → string)
    (callTool : nat → string → Json → Result CallToolResult)
    (toolName : string) (args : Json) (toolMap : gmap string MCPToolInfo)
  : Result string * list (nat * string * Json) :=
  match toolMap !! toolName with
  | None => (Throw (Error ("Unknown MCP tool: " +:+ toolName)), [])
  | Some toolInfo =>
      (match callTool (client toolInfo) (originalName toolInfo) args with
       | Ok result => Ok (formatToolResult stringify result)
       | Throw e => Throw e
       end,
       [(client toolInfo, originalName toolInfo, args)])
  end.

(** An item of [ReadResourceResult.contents]. *)
Record ResourceContents := mkContents {
  rc_uri : string;
  rc_text : option string;
  rc_blob : option string;
  rc_mimeType : option string;
}.

Record ResourceContext := mkContext {
  ctx_uri : string;
  ctx_content : string;
  ctx_mimeType : option string;
}.

(** The body of the loop over [result.contents]. *)
Definition context_of (c : ResourceContents) : ResourceContext :=
  {| ctx_uri := rc_uri c;
     ctx_content :=
       match rc_text c, rc_blob c with
       | Some text, _ => text
       | None, Some blob => "[Binary: " +:+ pretty (String.length blob) +:+ " bytes]"
       | None, None => EmptyString
       end;
     ctx_mimeType := rc_mimeType c |}.

(** The inner loop of [gatherResourceContext] for one uri: the contexts
    pushed and the clients asked, in order. *)
Fixpoint gather_uri (read : nat → string → Result (list ResourceContents))
    (clients : list nat) (uri : string) : list ResourceContext * list nat :=
  match clients with
  | [] => ([], [])
  | c :: clients' =>
      match read c uri with
      | Ok contents => (context_of <$> contents, [c])
      | Throw _ => ((gather_uri read clients' uri).1, c :: (gather_uri read clients' uri).2)
      end
  end.

(** [gatherResourceContext(clients, resourceUris)] *)
Definition gatherResourceContext (read : nat → string → Result (list ResourceContents))
    (clients : list nat) (resourceUris : list string) : list ResourceContext :=
  foldl (λ contexts uri, contexts ++ (gather_uri read clients uri).1) [] resourceUris.

End Routing.

(* ===================================================================== *)
(** * handlers/roots.ts *)
(* ===================================================================== *)

Module Roots.

Record Root := mkRoot {
  uri : string;
  name : option string;
}.

(** The handler's two arrays; a listener is named by its identity.
    Listeners are called for their effect only: what they return or
    throw is dropped by [notifyChange]. *)
Record RootsHandler := mkHandler {
  roots : list Root;
  changeListeners : list nat;
}.


(** [array.findIndex(p)], [None] for -1. *)
Fixpoint findIndex {A} (p : A → bool) (l : list A) : option nat :=
  match l with
  | [] => None
  | x :: l' => if p x then Some 0 else S <$> findIndex p l'
  end.

(** [notifyChange()]: the listeners called, in order. *)
Definition notifyChange (h : RootsHandler) : list nat := changeListeners h.

Definition getRoots (h : RootsHandler) : list Root := roots h.



(** [addRoot(root)] *)
Definition addRoot (root : Root) (h : RootsHandler) : RootsHandler * list nat :=
  if existsb (λ r, bool_decide (uri r = uri root)) (roots h) then (h, [])
  else
    let h' := {| roots := roots h ++ [root]; changeListeners := changeListeners h |} in
    (h', notifyChange h').

(** [removeRoot(uri)] *)
Definition removeRoot (u : string) (h : RootsHandler) : bool * RootsHandler * list nat :=
  match findIndex (λ r, bool_decide (uri r = u)) (roots h) with
  | None => (false, h, [])
  | Some index =>
      let h' := {| roots := delete index (roots h); changeListeners := changeListeners h |} in
      (true, h', notifyChange h')
  end.

(** [onRootsChanged(callback)]: the handler afterwards; the function
    returned closes over [callback] and is [unsubscribe callback]. *)
Definition onRootsChanged (callback : nat) (h : RootsHandler) : RootsHandler :=
  {| roots := roots h; changeListeners := changeListeners h ++ [callback] |}.

Definition unsubscribe (callback : nat) (h : RootsHandler) : RootsHandler :=
  match findIndex (λ l, bool_decide (l = callback)) (changeListeners h) with
  | None => h
  | Some index => {| roots := roots h; changeListeners := delete index (changeListeners h) |}
  end.

(** Calls of [addRoot] and [removeRoot], one after the other. *)
Inductive RootOp :=
  | AddRoot (root : Root)
  | RemoveRoot (u : string).

Definition run_op (h : RootsHandler) (op : RootOp) : RootsHandler :=
  match op with
  | AddRoot root => (addRoot root h).1
  | RemoveRoot u => (removeRoot u h).1.2
  end.

Definition run_ops (ops : list RootOp) (h : RootsHandler) : RootsHandler :=
  foldl run_op h ops.

End Roots.

(* ===================================================================== *)
(** * config.ts *)
(* ===================================================================== *)

Module Config.

(** A value as [validateMCPConfig] receives it ([unknown]). *)
#[local] Unset Elimination Schemes.
Inductive JsValue :=
  | VUndefined
  | VNull
  | VBool (b : bool)
  | VNumber (n : Z)
  | VString (s : string)
  | VArray (items : list JsValue)
  | VObject (fields : list (string * JsValue)).
#[local] Set Elimination Schemes.

(** [!v] is false *)
Definition truthy_value (v : JsValue) : bool :=
  match v with
  | VUndefined | VNull => false
  | VBool b => b
  | VNumber n => negb (bool_decide (n = 0%Z))
  | VString s => negb (bool_decide (s = EmptyString))
  | VArray _ | VObject _ => true
  end.

(** [typeof v === 'object'] *)
Definition is_object (v : JsValue) : bool :=
  match v with
  | VNull | VArray _ | VObject _ => true
  | _ => false
  end.

Definition is_string (v : JsValue) : bool :=
  match v with VString _ => true | _ => false end.

Definition is_array (v : JsValue) : bool :=
  match v with VArray _ => true | _ => false end.

Definition is_undefined (v : JsValue) : bool :=
  match v with VUndefined => true | _ => false end.

Definition is_null (v : JsValue) : bool :=
  match v with VNull => true | _ => false end.

(** The value of a field in a list of fields with distinct keys. *)
Fixpoint field (key : string) (fields : list (string * JsValue)) : JsValue :=
  match fields with
  | [] => VUndefined
  | (k, v) :: fields' => if decide (k = key) then v else field key fields'
  end.

(** [v[key]] for a key that is a property name of the config format
    (not an index, not a member of a prototype). *)
Definition get (key : string) (v : JsValue) : JsValue :=
  match v with
  | VObject fields => field key fields
  | _ => VUndefined
  end.

(** [Object.entries(v)] of an object or an array. *)
Definition entries (v : JsValue) : list (string * JsValue) :=
  match v with
  | VObject fields => fields
  | VArray items => imap (λ i item, (pretty i, item)) items
  | _ => []
  end.

(** The body of the loop of [validateMCPConfig]: [false] where the body
    returns [false], [true] where it falls through to the next entry. *)
Definition valid_server (serverConfig : JsValue) : bool :=
  if negb (truthy_value serverConfig) || negb (is_object serverConfig) then false
  else
    let hasCommand := is_string (get "command" serverConfig) in
    let hasUrl := is_string (get "url" serverConfig) in
    if negb hasCommand && negb hasUrl then false
    else if negb (is_undefined (get "args" serverConfig))
            && negb (is_array (get "args" serverConfig)) then false
    else if negb (is_undefined (get "env" serverConfig))
            && (is_null (get "env" serverConfig)
                || negb (is_object (get "env" serverConfig))
                || is_array (get "env" serverConfig)) then false
    else if negb (is_undefined (get "cwd" serverConfig))
            && negb (is_string (get "cwd" serverConfig)) then false
    else true.

(** [validateMCPConfig(config)] *)
Definition validateMCPConfig (config : JsValue) : bool :=
  if negb (truthy_value config) || negb (is_object config) then false
  else
    let mcpServers := get "mcpServers" config in
    if negb (truthy_value mcpServers) || negb (is_object mcpServers) then false
    else forallb (λ entry, valid_server entry.2) (entries mcpServers).

(** [fields] with [key] set to [v]. *)
Fixpoint set_field (key : string) (v : JsValue) (fields : list (string * JsValue))
  : list (string * JsValue) :=
  match fields with
  | [] => [(key, v)]
  | (k, v') :: fields' =>
      if decide (k = key) then (k, v) :: fields' else (k, v') :: set_field key v fields'
  end.

(** [mergeMCPConfigs(...configs)], a config being its [mcpServers]:
    [Object.assign(merged.mcpServers, config.mcpServers)] for each. *)
Definition mergeMCPConfigs {V} (configs : list (gmap string V)) : gmap string V :=
  foldl (λ merged config, config ∪ merged) ∅ configs.

End Config.

(* ===================================================================== *)
(** * Properties of the CancellationManager *)
(* ===================================================================== *)

Module CancellationSpec.
Import Cancellation.

Section facts.
Context {RequestId : Type} `{Countable RequestId}.
Implicit Types (m : CancellationManager RequestId) (id : RequestId).

Lemma isPending_true id m :
  isPending id m = true ↔ is_Some (pendingRequests m !! id).
Proof. unfold isPending. apply bool_decide_eq_true. Qed.

Lemma isPending_false id m :
  isPending id m = false ↔ pendingRequests m !! id = None.
Proof.
  unfold isPending. rewrite bool_decide_eq_false.
  rewrite <- eq_None_not_Some. done.
Qed.

Lemma cancel_pending id m c :
  pendingRequests m !! id = Some c →
  cancel id m = (true, {| controllers := abort c (controllers m);
                          pendingRequests := delete id (pendingRequests m);
                          counter := counter m |}).
Proof. intros Hc. unfold cancel. by rewrite Hc. Qed.

Lemma cancel_not_pending id m :
  pendingRequests m !! id = None → cancel id m = (false, m).
Proof. intros Hc. unfold cancel. by rewrite Hc. Qed.

Lemma complete_not_pending id m :
  pendingRequests m !! id = None → complete id m = m.
Proof.
  intros Hc. destruct m as [cs p n]; unfold complete; simpl in *.
  f_equal. by apply delete_id.
Qed.

Lemma aborted_true c m : aborted c m = true ↔ controllers m !! c = Some true.
Proof.
  unfold aborted. destruct (controllers m !! c) as [[]|]; simpl; split; congruence.
Qed.

Lemma abort_keeps_aborted c c' (cs : list bool) :
  cs !! c' = Some true → abort c cs !! c' = Some true.
Proof.
  intros Hc'. unfold abort. destruct (decide (c = c')) as [->|Hne].
  - apply list_lookup_insert_eq. by apply lookup_lt_Some in Hc'.
  - by rewrite list_lookup_insert_ne.
Qed.

(** [cancelAll()] empties the map, aborts every controller it tracked,
    and leaves the controllers that were aborted before aborted. *)
Lemma cancelAll_aborts m :
  pendingRequests (cancelAll m) = ∅ ∧
  (∀ c, aborted c m = true → aborted c (cancelAll m) = true) ∧
  (∀ id c, pendingRequests m !! id = Some c → c < length (controllers m) →
           aborted c (cancelAll m) = true).
Proof.
  split; [done|].
  assert (Hfold : ∀ p : gmap RequestId nat,
    let r := map_fold (λ _ c cs, abort c cs) (controllers m) p in
    length r = length (controllers m) ∧
    (∀ c, controllers m !! c = Some true → r !! c = Some true) ∧
    (∀ id c, p !! id = Some c → c < length (controllers m) → r !! c = Some true)).
  { apply (map_fold_weak_ind (λ r p,
      length r = length (controllers m) ∧
      (∀ c, controllers m !! c = Some true → r !! c = Some true) ∧
      (∀ id c, p !! id = Some c → c < length (controllers m) → r !! c = Some true))).
    - split_and!; [done|done|]. intros id c Hc. by rewrite lookup_empty in Hc.
    - intros k x p r Hk (Hlen & Hold & Htracked). split_and!.
      + unfold abort. by rewrite length_insert.
      + intros c Hc. by apply abort_keeps_aborted, Hold.
      + intros id c Hc Hlt. apply lookup_insert_Some in Hc as [[-> ->]|[Hne Hc]].
        * unfold abort. apply list_lookup_insert_eq. lia.
        * by apply abort_keeps_aborted, (Htracked id). }
  destruct (Hfold (pendingRequests m)) as (_ & Hold & Htracked).
  split.
  - intros c Hc. apply aborted_true. apply Hold. by apply aborted_true.
  - intros id c Hc Hlt. apply aborted_true. by apply (Htracked id).
Qed.

(** [create] keeps every tracked reference inside the store. *)
Lemma create_wf id m : wf m → wf (create id m).2.
Proof.
  intros Hwf id' c; simpl. rewrite length_app; simpl.
  destruct (decide (id = id')) as [->|Hne].
  - rewrite lookup_insert_eq. intros [= <-]. lia.
  - rewrite lookup_insert_ne by done. intros Hc. apply Hwf in Hc. lia.
Qed.

Lemma cancel_wf id m : wf m → wf (cancel id m).2.
Proof.
  intros Hwf. unfold cancel.
  destruct (pendingRequests m !! id) as [c|] eqn:Hc; simpl; [|done].
  intros id' c'; simpl. unfold abort. rewrite length_insert.
  intros Hc'. apply lookup_delete_Some in Hc' as [_ Hc']. by apply Hwf in Hc'.
Qed.

Lemma empty_wf : wf (empty (RequestId := RequestId)).
Proof. intros id c Hc. simpl in Hc. by rewrite lookup_empty in Hc. Qed.

Lemma cancelAll_wf m : wf (cancelAll m).
Proof. intros id c Hc. simpl in Hc. by rewrite lookup_empty in Hc. Qed.

Lemma complete_wf id m : wf m → wf (complete id m).
Proof.
  intros Hwf id' c'; simpl.
  intros Hc'. apply lookup_delete_Some in Hc' as [_ Hc']. by apply Hwf in Hc'.
Qed.

(** C1: at most one of [cancel(id)] and [complete(id)] wins.
    For every manager [m] and every [id]:
    [cancel(id)] answers [true] exactly when [id] is pending, in which
    case the tracked controller is aborted and the entry removed, and a
    [cancel] of an id that is not pending answers [false] and leaves the
    manager as it is.  After [create(id)] the id is pending and its
    controller not aborted; a [cancel(id)] then answers [true], aborts
    that controller and removes the entry; a second [cancel(id)] answers
    [false] and changes nothing, and so does a [complete(id)] after the
    winning cancel; a [cancel(id)] after [complete(id)] answers [false],
    changes nothing, and the controller stays not aborted. *)
Theorem cancel_complete_at_most_once m id :
  ((cancel id m).1 = true ↔ isPending id m = true) ∧
  (isPending id m = false ↔ cancel id m = (false, m)) ∧
  (∀ tracked, wf m → getSignal id m = Some tracked →
              aborted tracked (cancel id m).2 = true ∧
              isPending id (cancel id m).2 = false) ∧
  let c := (create id m).1 in
  let created := (create id m).2 in
  let cancelled := (cancel id created).2 in
  let completed := complete id created in
  isPending id created = true ∧ aborted c created = false ∧
  (cancel id created).1 = true ∧
  aborted c cancelled = true ∧ isPending id cancelled = false ∧
  cancel id cancelled = (false, cancelled) ∧
  complete id cancelled = cancelled ∧
  isPending id completed = false ∧
  cancel id completed = (false, completed) ∧
  aborted c completed = false.
Proof.
  split; [|split; [|split]].
  - rewrite isPending_true. unfold cancel.
    destruct (pendingRequests m !! id) as [c|] eqn:Hc; simpl.
    + split; eauto.
    + split; [done|]. by intros [? ?].
  - rewrite isPending_false. split.
    + apply cancel_not_pending.
    + unfold cancel. destruct (pendingRequests m !! id); [|done]. by intros [= ?].
  - intros tracked Hwf Htracked. unfold getSignal in Htracked.
    rewrite (cancel_pending _ _ _ Htracked); simpl. split.
    + apply aborted_true; simpl. apply list_lookup_insert_eq. by apply (Hwf id).
    + apply isPending_false; simpl. apply lookup_delete_eq.
  - intros c created cancelled completed.
    assert (Hcreated : pendingRequests created !! id = Some c)
      by (subst created c; simpl; apply lookup_insert_eq).
    assert (Hcancel : cancel id created =
              (true, {| controllers := abort c (controllers created);
                        pendingRequests := delete id (pendingRequests created);
                        counter := counter created |}))
      by (by apply cancel_pending).
    assert (Hgone : pendingRequests cancelled !! id = None).
    { subst cancelled. rewrite Hcancel; simpl. apply lookup_delete_eq. }
    assert (Hgone' : pendingRequests completed !! id = None)
      by (subst completed; simpl; apply lookup_delete_eq).
    assert (Hfresh : controllers created !! c = Some false).
    { subst created c; simpl. rewrite lookup_app_r by done.
      by rewrite Nat.sub_diag. }
    split_and!.
    + apply isPending_true. eauto.
    + unfold aborted. by rewrite Hfresh.
    + by rewrite Hcancel.
    + subst cancelled. rewrite Hcancel. unfold aborted, abort; simpl.
      rewrite list_lookup_insert_eq; [done|].
      by apply lookup_lt_Some in Hfresh.
    + by apply isPending_false.
    + by apply cancel_not_pending.
    + by apply complete_not_pending.
    + by apply isPending_false.
    + by apply cancel_not_pending.
    + unfold aborted.
      change (controllers completed) with (controllers created).
      by rewrite Hfresh.
Qed.

End facts.

(** The scenario of the unit tests, on string ids. *)
Example cancel_after_complete_req1 :
  let m1 := (create "req-1" (empty (RequestId := string))).2 in
  (cancel "req-1" (complete "req-1" m1)).1 = false ∧
  (cancel "req-1" m1).1 = true ∧
  aborted 0 (cancel "req-1" m1).2 = true ∧
  isPending "req-1" (cancel "req-1" m1).2 = false.
Proof. vm_compute. done. Qed.

End CancellationSpec.

(* ===================================================================== *)
(** * Properties of the TaskStatusManager and of waitForTask *)
(* ===================================================================== *)

Module TasksSpec.
Import Tasks.

Implicit Types (m : TaskStatusManager) (u : Unsubscribe) (cb : TaskStatusCallback).

(** ** The [Set] of callbacks *)

Lemma set_delete_not_elem cb (s : CallbackSet) : cb ∉ set_delete cb s.
Proof. unfold set_delete. rewrite list_elem_of_filter. tauto. Qed.

Lemma set_delete_other cb cb' (s : CallbackSet) :
  cb' ≠ cb → cb' ∈ set_delete cb s ↔ cb' ∈ s.
Proof. intros Hne. unfold set_delete. rewrite list_elem_of_filter. tauto. Qed.

Lemma set_add_elem cb cb' (s : CallbackSet) :
  cb' ∈ set_add cb s ↔ cb' = cb ∨ cb' ∈ s.
Proof.
  unfold set_add. case_decide as Hin.
  - split; [auto|]. intros [->|?]; done.
  - rewrite elem_of_app, list_elem_of_singleton. tauto.
Qed.

(** ** subscribe and the closure it returns *)

Lemma subscribe_closure taskId cb m :
  captured_callback (subscribe taskId cb m).1 = cb ∧
  captured_taskId (subscribe taskId cb m).1 = taskId.
Proof. unfold subscribe. by destruct (callbacks m !! taskId). Qed.

(** After [subscribe] the callback is delivered to. *)
Lemma subscribe_delivers taskId cb m task :
  wf m → id task = taskId →
  cb ∈ handleStatus task (subscribe taskId cb m).2.
Proof.
  intros Hwf Hid. unfold handleStatus, subscribe, set_at. rewrite Hid.
  destruct (callbacks m !! taskId) as [s|] eqn:Hs; simpl.
  - rewrite Hs, list_lookup_alter_eq.
    destruct (lookup_lt_is_Some_2 (sets m) s (Hwf _ _ Hs)) as [set ->]; simpl.
    apply set_add_elem. by left.
  - rewrite lookup_insert_eq, lookup_app_r, Nat.sub_diag by done; simpl.
    apply set_add_elem. by left.
Qed.

Lemma subscribe_wf taskId cb m : wf m → wf (subscribe taskId cb m).2.
Proof.
  intros Hwf taskId' s'. unfold subscribe.
  destruct (callbacks m !! taskId) as [s|] eqn:Hs; simpl.
  - rewrite length_alter. apply Hwf.
  - rewrite length_app; simpl. intros [[_ <-]|[_ Hs']]%lookup_insert_Some; [lia|].
    apply Hwf in Hs'. lia.
Qed.

Lemma unsubscribe_wf u m : wf m → wf (unsubscribe u m).
Proof.
  intros Hwf taskId s. unfold unsubscribe. case_decide; simpl; rewrite length_alter.
  - intros [_ Hs]%lookup_delete_Some. by apply Hwf in Hs.
  - apply Hwf.
Qed.

(** Whatever the manager looks like, the [Set] the closure captured does
    not hold the callback once the closure has run. *)
Lemma unsubscribe_removes u m :
  captured_callback u ∉ set_at (captured_callbacks u) (unsubscribe u m).
Proof.
  assert (Hsets : ∀ m', sets m' = alter (set_delete (captured_callback u))
                                   (captured_callbacks u) (sets m) →
            captured_callback u ∉ set_at (captured_callbacks u) m').
  { intros m' Hm'. unfold set_at. rewrite Hm', list_lookup_alter_eq.
    destruct (sets m !! captured_callbacks u) as [s|]; simpl.
    - apply set_delete_not_elem.
    - apply not_elem_of_nil. }
  unfold unsubscribe. case_decide; by apply Hsets.
Qed.

(** While the captured [Set] is the one the map holds for the task, the
    closure removes its own callback and no other, and the task's entry
    goes exactly when the [Set] has become empty. *)
Lemma unsubscribe_current u m task :
  callbacks m !! captured_taskId u = Some (captured_callbacks u) →
  id task = captured_taskId u →
  (∀ cb, cb ∈ handleStatus task (unsubscribe u m) ↔
         cb ≠ captured_callback u ∧ cb ∈ handleStatus task m) ∧
  (callbacks (unsubscribe u m) !! captured_taskId u = None ↔
   set_at (captured_callbacks u) (unsubscribe u m) = []).
Proof.
  intros Hcur Hid. unfold handleStatus. rewrite Hid, Hcur.
  assert (Hat : ∀ m', sets m' = alter (set_delete (captured_callback u))
                                  (captured_callbacks u) (sets m) →
            set_at (captured_callbacks u) m'
            = set_delete (captured_callback u) (set_at (captured_callbacks u) m)).
  { intros m' Hm'. unfold set_at. rewrite Hm', list_lookup_alter_eq.
    by destruct (sets m !! captured_callbacks u). }
  unfold unsubscribe. case_decide as Hlen; simpl.
  - rewrite lookup_delete_eq.
    match goal with |- context [set_at _ ?m'] => specialize (Hat m' eq_refl) end.
    assert (Hnil : set_delete (captured_callback u) (set_at (captured_callbacks u) m) = []).
    { rewrite <- Hat. unfold set_at; simpl. by apply length_zero_iff_nil. }
    rewrite Hat. split; [|done].
    intros cb. split; [by intros ?%elem_of_nil|].
    intros [Hne Hin]. apply (set_delete_other (captured_callback u)) in Hin; [|done].
    by rewrite Hnil in Hin.
  - rewrite Hcur.
    match goal with |- context [set_at _ ?m'] => specialize (Hat m' eq_refl) end.
    rewrite Hat. split.
    + intros cb. unfold set_delete. rewrite list_elem_of_filter. tauto.
    + split; [done|]. intros Hnil. exfalso. apply Hlen.
      rewrite <- Hat in Hnil. unfold set_at in Hnil; simpl in Hnil. by rewrite Hnil.
Qed.

(** C6 (evaluation at the failing input): a closure that is run again
    after its [Set] was dropped from the map removes the entry of the
    [Set] that replaced it.  Callback [1] subscribes to [task-1] and
    unsubscribes; callback [2] subscribes to [task-1]; the first closure
    is run once more.  Callback [2] never unsubscribed and was delivered
    to before that second run, yet afterwards [handleStatus] delivers to
    nobody and [hasSubscribers] is [false], although the [Set] of
    callback [2] is not empty. *)
Example unsubscribe_again_drops_later_subscriber :
  let task := mkTask "task-1" running None None in
  let first := subscribe "task-1" 1 empty in
  let m1 := unsubscribe first.1 first.2 in
  let second := subscribe "task-1" 2 m1 in
  let m2 := unsubscribe first.1 second.2 in
  handleStatus task second.2 = [2] ∧
  handleStatus task m2 = [] ∧
  hasSubscribers "task-1" m2 = false ∧
  set_at (captured_callbacks second.1) m2 = [2].
Proof. vm_compute. done. Qed.

(** The same through [clear()]: a closure from before the [clear] removes
    the entry a later subscriber created. *)
Example unsubscribe_after_clear_drops_later_subscriber :
  let task := mkTask "task-1" running None None in
  let first := subscribe "task-1" 1 empty in
  let second := subscribe "task-1" 2 (clear first.2) in
  let m2 := unsubscribe first.1 second.2 in
  handleStatus task second.2 = [2] ∧ handleStatus task m2 = [].
Proof. vm_compute. done. Qed.

(** ** waitForTask *)

Lemma poll_loop_finishes taskId options start ps m events :
  existsb (leaves_loop options start) ps = true →
  is_Some (poll_loop taskId options start ps m events).
Proof.
  revert m events. induction ps as [|p ps IH]; intros m events; simpl; [done|].
  unfold leaves_loop at 1.
  destruct (signal options && aborted_at_head p); simpl; [eauto|].
  destruct (timeout_exceeded _ _ _); simpl; [eauto|].
  destruct (getTask p) as [task|e]; simpl; [|eauto].
  destruct (onStatus options ≫= _) as [e|]; simpl; [eauto|].
  destruct (terminal (state task)); simpl; [eauto|].
  destruct (sleep _ _ _); simpl; [|eauto].
  apply IH.
Qed.

(** [waitForTask] finishes whenever the signal is aborted at entry or
    some iteration leaves the loop. *)
Lemma waitForTask_finishes taskId options env m :
  (signal options && aborted_at_entry env)
  || existsb (leaves_loop options (startTime env)) (polls env) = true →
  is_Some (waitForTask taskId options env m).
Proof.
  unfold waitForTask. destruct (signal options && aborted_at_entry env); simpl; [eauto|].
  intros Hex.
  destruct (poll_loop_finishes taskId options (startTime env) (polls env)
              (subscribe_onStatus taskId options m).2 [] Hex) as [[[r m2] evs] ->].
  eauto.
Qed.

(** Every way out of [waitForTask] runs the closure of the subscription
    made at entry as its last step. *)
Lemma waitForTask_ends_with_unsubscribe taskId options env m r m' events :
  waitForTask taskId options env m = Some (r, m', events) →
  ∃ m2, m' = run_unsubscribe (subscribe_onStatus taskId options m).1 m2.
Proof.
  unfold waitForTask. destruct (signal options && aborted_at_entry env).
  - intros [= <- <- <-]. eauto.
  - destruct (poll_loop _ _ _ _ _ _) as [[[r2 m2] evs]|]; [|done].
    intros [= <- <- <-]. eauto.
Qed.

(** C8: [waitForTask] unsubscribes its status callback on every exit.
    For every environment (task snapshots, clock readings, abort signal,
    failures of [getTask], of [getTaskResult] and of the callback, and
    other code subscribing, unsubscribing or clearing while [waitForTask]
    is suspended) under which [waitForTask], given an [onStatus] callback,
    finishes with whatever outcome [r]: the [Set] into which the callback
    was subscribed at entry no longer holds it, so [handleStatus] cannot
    deliver to it through that subscription. *)
Theorem waitForTask_unsubscribes taskId options env m callback r m' events :
  onStatus options = Some callback →
  waitForTask taskId options env m = Some (r, m', events) →
  let u := (subscribe taskId callback m).1 in
  (callback ∉ set_at (captured_callbacks u) m') ∧
  (∀ task, id task = taskId →
           callbacks m' !! taskId = Some (captured_callbacks u) →
           callback ∉ handleStatus task m').
Proof.
  intros Hcb Hwait u.
  assert (Hgone : callback ∉ set_at (captured_callbacks u) m').
  { apply waitForTask_ends_with_unsubscribe in Hwait as [m2 ->].
    unfold subscribe_onStatus. rewrite Hcb; simpl. fold u.
    replace callback with (captured_callback u) at 1
      by apply (subscribe_closure taskId callback m).
    apply unsubscribe_removes. }
  split; [done|].
  intros task Hid Hcur. unfold handleStatus. by rewrite Hid, Hcur.
Qed.

(** When nothing else touches the manager meanwhile, the callback is not
    delivered to at all once [waitForTask] has finished. *)
Lemma waitForTask_quiet_unsubscribed taskId options env m callback r m' events task :
  onStatus options = Some callback →
  Forall (λ p, during_getTask p = [] ∧ during_sleep p = []) (polls env) →
  waitForTask taskId options env m = Some (r, m', events) →
  id task = taskId →
  callback ∉ handleStatus task m'.
Proof.
  intros Hcb Hquiet Hwait Hid.
  assert (Hloop : ∀ ps m1 evs r2 m2 evs2,
            Forall (λ p, during_getTask p = [] ∧ during_sleep p = []) ps →
            poll_loop taskId options (startTime env) ps m1 evs = Some (r2, m2, evs2) →
            m2 = m1).
  { induction ps as [|p ps IH]; intros m1 evs r2 m2 evs2 Hps; simpl; [done|].
    apply Forall_cons in Hps as [[Hg Hs] Hps]. rewrite Hg, Hs; simpl.
    destruct (signal options && aborted_at_head p); [by intros [= <- <- <-]|].
    destruct (timeout_exceeded _ _ _); [by intros [= <- <- <-]|].
    destruct (getTask p) as [t|e]; [|by intros [= <- <- <-]].
    destruct (onStatus options ≫= _); [by intros [= <- <- <-]|].
    destruct (terminal (state t)); [by intros [= <- <- <-]|].
    destruct (sleep _ _ _); [|by intros [= <- <- <-]].
    by apply IH. }
  pose proof (subscribe_closure taskId callback m) as [Hc Ht].
  set (u := (subscribe taskId callback m).1) in *.
  assert (Hm' : m' = unsubscribe u (subscribe taskId callback m).2).
  { revert Hwait. unfold waitForTask, subscribe_onStatus. rewrite Hcb; simpl.
    destruct (signal options && aborted_at_entry env).
    - by intros [= <- <- <-].
    - destruct (poll_loop _ _ _ _ _ _) as [[[r2 m2] evs]|] eqn:Hl; [|done].
      apply Hloop in Hl; [|done]. subst m2. by intros [= <- <- <-]. }
  assert (Hcur : callbacks (subscribe taskId callback m).2 !! captured_taskId u
                 = Some (captured_callbacks u)).
  { rewrite Ht. subst u. unfold subscribe.
    destruct (callbacks m !! taskId) eqn:Hm; simpl; [done|]. apply lookup_insert_eq. }
  destruct (unsubscribe_current u _ task Hcur) as [Hdeliver _]; [by rewrite Ht|].
  rewrite Hm', Hdeliver, Hc. tauto.
Qed.

(** The abort checks of [waitForTask] itself throw [TaskAbortedError]:
    at entry, before any call on the client, and at the head of the loop. *)
Lemma waitForTask_aborted_at_entry taskId options env m :
  signal options = true → aborted_at_entry env = true →
  ∃ m', waitForTask taskId options env m
        = Some (Throw (TaskAbortedError taskId), m', []).
Proof. intros Hs Ha. unfold waitForTask. rewrite Hs, Ha; simpl. eauto. Qed.

Lemma poll_loop_aborted_at_head taskId options start p ps m events :
  signal options = true → aborted_at_head p = true →
  poll_loop taskId options start (p :: ps) m events
  = Some (Throw (TaskAbortedError taskId), m, events).
Proof. intros Hs Ha. simpl. by rewrite Hs, Ha. Qed.

(** An abort that [sleep] sees, at its start or while it is pending, ends
    the sleep at once with the plain [Error] that [sleep] creates. *)
Lemma sleep_aborted aborted_now ending :
  aborted_now = true ∨ ending = AbortFires →
  sleep true aborted_now ending = Throw (Error "Aborted").
Proof. intros [-> | ->]; [done|]. by destruct aborted_now. Qed.

(** An iteration that gets as far as the sleep, with the signal aborted
    by then or firing during it, ends [waitForTask]'s loop with that plain
    [Error], whatever the task and the options. *)
Lemma poll_loop_aborted_in_sleep taskId options start p ps m events task :
  signal options = true →
  aborted_at_head p = false →
  timeout_exceeded (timeout options) start (now_at_head p) = None →
  getTask p = Ok task →
  onStatus options ≫= (λ _, onStatus_throws p) = None →
  terminal (state task) = false →
  aborted_at_sleep p = true ∨ sleep_end p = AbortFires →
  ∃ m' events',
    poll_loop taskId options start (p :: ps) m events
    = Some (Throw (Error "Aborted"), m', events').
Proof.
  intros Hs Hhead Htimeout Htask Hcb Hterm Hsleep. simpl.
  rewrite Hs, Hhead, Htimeout, Htask, Hcb, Hterm; simpl.
  rewrite (sleep_aborted _ _ Hsleep). eauto.
Qed.

(** C4 (evaluation at the failing input): an abort that arrives while
    [waitForTask] sleeps between two polls.  A signal is passed and not
    aborted at entry; the first poll finds the task [running]; the signal
    fires during the sleep that follows.  The sleep ends at once, and
    [waitForTask] fails with the plain [Error('Aborted')] of [sleep], which
    is not a [TaskAbortedError] and does not carry the task id. *)
Example waitForTask_abort_during_sleep :
  let options := mkOptions (Some 100%Z) None None true in
  let env := mkEnv 0 false [quiet_poll 5 running AbortFires] in
  (waitForTask "task-1" options env empty = Some (Throw (Error "Aborted"), empty,
                                                  [GetTaskCalled; Slept 100])) ∧
  Error "Aborted" ≠ TaskAbortedError "task-1".
Proof. split; [vm_compute; reflexivity | discriminate]. Qed.

(** The polling scenario of the unit tests: states [pending], [running],
    [completed] on successive polls give three [onStatus] calls and the
    result payload, and the callback [7] is unsubscribed at the end. *)
Example waitForTask_three_polls :
  let options := mkOptions (Some 10%Z) None (Some 7) false in
  let env := mkEnv 0 false [quiet_poll 0 pending TimerFires;
                            quiet_poll 10 running TimerFires;
                            quiet_poll 20 completed TimerFires] in
  let snapshot := λ s, OnStatusCalled (mkTask "task-1" s None None) in
  ∃ m',
    waitForTask "task-1" options env empty
    = Some (Ok (mkTaskResult "task-1" (Some "42") None), m',
            [GetTaskCalled; snapshot pending; Slept 10;
             GetTaskCalled; snapshot running; Slept 10;
             GetTaskCalled; snapshot completed; GetTaskResultCalled]) ∧
    hasSubscribers "task-1" m' = false.
Proof. eexists _. split; [vm_compute; reflexivity|]. vm_compute. done. Qed.

(** The timeout scenario: a task that stays [running], timeout 25. *)
Example waitForTask_times_out :
  let options := mkOptions (Some 10%Z) (Some 25%Z) (Some 7) false in
  let env := mkEnv 0 false [quiet_poll 0 running TimerFires;
                            quiet_poll 10 running TimerFires;
                            quiet_poll 20 running TimerFires;
                            quiet_poll 30 running TimerFires] in
  ∃ m' events,
    waitForTask "task-1" options env empty
    = Some (Throw (TaskTimeoutError "task-1" 25), m', events) ∧
    hasSubscribers "task-1" m' = false.
Proof. eexists _, _. split; [vm_compute; reflexivity|]. vm_compute. done. Qed.

(** C8 (witness): a run that ends by a failure of [getTask], with other
    code clearing the manager meanwhile. *)
Lemma waitForTask_unsubscribes_witness :
  let options := mkOptions None None (Some 7) true in
  let failing :=
    {| aborted_at_head := false; now_at_head := 1; during_getTask := [OpClear];
       getTask := Throw (MCPConnectionError "closed"); onStatus_throws := None;
       getTaskResult := Throw (MCPConnectionError "closed");
       aborted_at_sleep := false; during_sleep := []; sleep_end := TimerFires |} in
  let env := mkEnv 0 false [quiet_poll 0 running TimerFires; failing] in
  ∃ r m' events,
    waitForTask "task-1" options env empty = Some (r, m', events) ∧
    7 ∉ set_at 0 m'.
Proof.
  intros options failing env.
  destruct (waitForTask "task-1" options env empty) as [[[r m'] events]|] eqn:Hwait.
  - exists r, m', events. split; [reflexivity|].
    exact (proj1 (waitForTask_unsubscribes "task-1" options env empty 7 r m' events
                    eq_refl Hwait)).
  - vm_compute in Hwait. discriminate Hwait.
Defined.

End TasksSpec.

(* ===================================================================== *)
(** * Properties of DedalusMCPClient *)
(* ===================================================================== *)

Module ClientSpec.
Import Client.

Implicit Types (c : DedalusMCPClient) (op : CancellableOperation).

(** ** close *)

(** C5: [close()] is idempotent.
    On a connected client, whether [this.client.close()] resolves or
    rejects ([transport]): the first call closes the transport once,
    leaves the client disconnected, and clears the three registries: no
    progress callback, no pending request, and every controller that was
    pending is aborted, no task-status subscription; a transport failure
    is rethrown after that.  A second call, once the first has finished,
    returns normally whatever the transport would do ([again]), calls
    nothing and changes nothing. *)
Theorem close_idempotent (transport again : Result unit) c :
  connected c = true →
  let first := close transport c in
  let c1 := first.2 in
  first.1 = transport ∧
  sdk_calls c1 = sdk_calls c ++ [SdkClose] ∧
  isConnected c1 = false ∧
  Progress.callbacks (progressTracker c1) = ∅ ∧
  Cancellation.pendingRequests (cancellationManager c1) = ∅ ∧
  (∀ id ctrl, Cancellation.getSignal id (cancellationManager c) = Some ctrl →
              ctrl < length (Cancellation.controllers (cancellationManager c)) →
              Cancellation.aborted ctrl (cancellationManager c1) = true) ∧
  Tasks.callbacks (taskStatusManager c1) = ∅ ∧
  close again c1 = (Ok tt, c1).
Proof.
  intros Hconn first c1. subst c1 first.
  unfold close, close_begin. rewrite Hconn; simpl.
  split_and!; try done.
  intros id ctrl Hctrl Hlt.
  by apply (CancellationSpec.cancelAll_aborts (cancellationManager c)) with id.
Qed.

(** C5 (witness): a failing transport close on a client with a call in
    flight. *)
Lemma close_idempotent_witness :
  let first := close (Throw (Error "transport")) busy_client in
  first.1 = Throw (Error "transport") ∧
  isConnected first.2 = false ∧
  Cancellation.aborted 0 (cancellationManager first.2) = true ∧
  close (Throw (Error "transport")) first.2 = (Ok tt, first.2).
Proof.
  pose proof (close_idempotent (Throw (Error "transport")) (Throw (Error "transport"))
                busy_client eq_refl) as (H1 & _ & H3 & _ & _ & H6 & _ & H8).
  split_and!; [exact H1 | exact H3 | | exact H8].
  apply (H6 "req-5-0" 0); [reflexivity | vm_compute; lia].
Defined.

(** A [close()] that starts while another is still awaiting the transport
    is not stopped by the [connected] test: the transport is closed
    twice. *)
Lemma close_overlapping c :
  connected c = true →
  ∃ c1 c2, close_begin c = Some c1 ∧ close_begin c1 = Some c2 ∧
           sdk_calls c2 = sdk_calls c ++ [SdkClose; SdkClose].
Proof.
  intros Hconn. exists (sdk_call SdkClose c), (sdk_call SdkClose (sdk_call SdkClose c)).
  unfold close_begin; simpl. rewrite Hconn; simpl.
  split_and!; [reflexivity..|]. by rewrite <- app_assoc.
Qed.

(** ** callToolCancellable *)

Lemma callToolCancellable_requestId now name args c :
  requestId (callToolCancellable now name args c).1
  = (Cancellation.generateRequestId now (cancellationManager c)).1.
Proof.
  unfold callToolCancellable, callTool_begin, ensureConnected; simpl.
  by destruct (connected c).
Qed.

(** On a connected client the entry exists when the call is handed to
    the SDK, and the promise is pending. *)
Lemma callToolCancellable_connected now name args c :
  connected c = true →
  let started := callToolCancellable now name args c in
  promise started.1 = Pending ∧
  Cancellation.isPending (requestId started.1) (cancellationManager started.2) = true ∧
  sdk_calls started.2 = sdk_calls c ++ [SdkCallTool name args None].
Proof.
  intros Hconn. unfold callToolCancellable, callTool_begin, ensureConnected; simpl.
  rewrite Hconn; simpl. split_and!; [done| |done].
  apply CancellationSpec.isPending_true; simpl. rewrite lookup_insert_eq. eauto.
Qed.

(** When the awaited call settles, either way, the entry is removed. *)
Lemma callToolCancellable_settled op outcome c :
  let settled := callToolCancellable_settle op outcome c in
  promise settled.1 = Settled outcome ∧
  Cancellation.isPending (requestId op) (cancellationManager settled.2) = false ∧
  sdk_calls settled.2 = sdk_calls c.
Proof.
  simpl. split_and!; [done| |done].
  apply CancellationSpec.isPending_false; simpl. apply lookup_delete_eq.
Qed.

(** [cancel()] on a pending entry removes it and notifies the server;
    on an entry that is gone it does nothing. *)
Lemma cancel_operation_pending op c :
  Cancellation.isPending (requestId op) (cancellationManager c) = true →
  sdk_calls (cancel_operation op c)
  = sdk_calls c ++ [SdkNotification "notifications/cancelled" (requestId op)
                                    (Some "User cancelled")] ∧
  Cancellation.isPending (requestId op) (cancellationManager (cancel_operation op c)) = false.
Proof.
  intros [ctrl Hp]%CancellationSpec.isPending_true.
  unfold cancel_operation. rewrite (CancellationSpec.cancel_pending _ _ _ Hp); simpl.
  split; [done|]. apply CancellationSpec.isPending_false; simpl. apply lookup_delete_eq.
Qed.

Lemma cancel_operation_not_pending op c :
  Cancellation.isPending (requestId op) (cancellationManager c) = false →
  cancel_operation op c = c.
Proof.
  intros Hp%CancellationSpec.isPending_false.
  unfold cancel_operation. by rewrite (CancellationSpec.cancel_not_pending _ _ Hp).
Qed.

(** C2 (evaluation at the failing input): [callToolCancellable] on a
    client that is not connected (here: closed before).  The returned
    promise is already rejected with the not-connected error and nothing
    was handed to the SDK, yet the request id is still pending in the
    CancellationManager, because [ensureConnected()] throws before the
    [try] whose branches call [complete]; a [cancel()] after that
    rejection then wins and sends a cancellation notification. *)
Example callToolCancellable_not_connected :
  let closed := (close (Ok tt) (new_client true)).2 in
  let started := callToolCancellable 1700000000000 "long_operation" None closed in
  let op := started.1 in
  requestId op = "req-1700000000000-0" ∧
  promise op = Settled (Throw (MCPConnectionError
                 "Not connected to MCP server. Call connect() first.")) ∧
  sdk_calls started.2 = [SdkClose] ∧
  Cancellation.isPending (requestId op) (cancellationManager started.2) = true ∧
  sdk_calls (cancel_operation op started.2)
  = [SdkClose; SdkNotification "notifications/cancelled" "req-1700000000000-0"
                               (Some "User cancelled")].
Proof. vm_compute. done. Qed.

(** ** Pagination *)

Lemma truthy_false (cursor : option string) :
  truthy cursor = false ↔ cursor = None ∨ cursor = Some EmptyString.
Proof.
  destruct cursor as [s|]; simpl; [|by split; [left|]].
  rewrite negb_false_iff, bool_decide_eq_true. split.
  - intros ->. by right.
  - intros [?|[= ->]]; done.
Qed.

Lemma truthy_true (cursor : option string) :
  truthy cursor = true ↔ ∃ s, cursor = Some s ∧ s ≠ EmptyString.
Proof.
  destruct cursor as [s|]; simpl; [|by split; [|intros (? & ? & ?)]].
  rewrite negb_true_iff, bool_decide_eq_false. split.
  - intros Hne. by exists s.
  - by intros (? & [= <-] & ?).
Qed.

Section pagination_facts.
Context {Item Server : Type}.
Variable sdk_list : Server → option string → Result (Page Item) * Server.

Lemma list_page_connected c cursor srv :
  connected c = true →
  cursor = None ∨ truthy cursor = true →
  list_page sdk_list c cursor srv = (sdk_list srv cursor, [cursor]).
Proof.
  intros Hconn Hcur. unfold list_page, ensureConnected. rewrite Hconn.
  by destruct Hcur as [-> | ->].
Qed.

Lemma listAll_loop_serves c srv cursor pages srv' :
  connected c = true →
  serves sdk_list srv cursor pages srv' →
  cursor = None ∨ truthy cursor = true →
  ∀ fuel acc sent, length pages ≤ fuel →
    ∃ sent', listAll_loop sdk_list fuel c cursor acc srv sent
             = Some (Ok (acc ++ concat (items <$> pages)), srv', sent ++ sent') ∧
             length sent' = length pages.
Proof.
  intros Hconn Hserves.
  induction Hserves as [srv param page srv' Hpage Hlast
                       |srv param page cursor srv1 pages srv' Hpage Hnext Hne _ IH];
    intros Hcur fuel acc sent Hfuel;
    (destruct fuel as [|fuel]; [simpl in Hfuel; lia|]); simpl;
    rewrite (list_page_connected _ _ _ Hconn Hcur), Hpage.
  - apply truthy_false in Hlast. rewrite Hlast.
    exists [param]. by rewrite app_nil_r.
  - assert (Htruthy : truthy (nextCursor page) = true)
      by (apply truthy_true; eauto).
    rewrite Htruthy, Hnext.
    destruct (IH (or_intror (eq_trans (f_equal truthy (eq_sym Hnext)) Htruthy))
                 fuel (acc ++ items page) (sent ++ [param])) as (sent' & -> & Hlen).
    { simpl in Hfuel. lia. }
    exists (param :: sent'). rewrite <- !app_assoc. simpl. by rewrite Hlen.
Qed.

Lemma listAll_serves c srv pages srv' fuel :
  connected c = true →
  serves sdk_list srv None pages srv' →
  length pages ≤ fuel →
  ∃ sent, listAll sdk_list fuel c srv
          = Some (Ok (concat (items <$> pages)), srv', sent) ∧
          length sent = length pages.
Proof.
  intros Hconn Hserves Hfuel. unfold listAll.
  destruct (listAll_loop_serves c srv None pages srv' Hconn Hserves (or_introl eq_refl)
              fuel [] [] Hfuel) as (sent' & -> & Hlen).
  by exists sent'.
Qed.

End pagination_facts.

(** C10: the pagination helpers stop at an absent or an empty cursor.
    For a connected client and every finite sequence of pages the server
    serves — each page but the last with a non-empty [nextCursor], the
    last with [nextCursor] absent or equal to the empty string —
    [listAllTools], [listAllResources] and [listAllPrompts], given enough
    fuel, return exactly the concatenation of the pages' items in order,
    after as many requests as there are pages: the last page's items are
    included and no further page is fetched. *)
Theorem listAll_stops_at_falsy_cursor {Server Tool Resource Prompt : Type}
    (sdk : Sdk Server Tool Resource Prompt) c fuel :
  connected c = true →
  (∀ srv srv' pages,
     serves (sdk_listTools sdk) srv None pages srv' → length pages ≤ fuel →
     ∃ sent, listAllTools sdk fuel c srv
             = Some (Ok (concat (items <$> pages)), srv', sent) ∧
             length sent = length pages) ∧
  (∀ srv srv' pages,
     serves (sdk_listResources sdk) srv None pages srv' → length pages ≤ fuel →
     ∃ sent, listAllResources sdk fuel c srv
             = Some (Ok (concat (items <$> pages)), srv', sent) ∧
             length sent = length pages) ∧
  (∀ srv srv' pages,
     serves (sdk_listPrompts sdk) srv None pages srv' → length pages ≤ fuel →
     ∃ sent, listAllPrompts sdk fuel c srv
             = Some (Ok (concat (items <$> pages)), srv', sent) ∧
             length sent = length pages).
Proof.
  intros Hconn. split_and!; intros srv srv' pages Hserves Hfuel;
    by apply listAll_serves.
Qed.

(** The pages the example server serves from its initial state. *)
Lemma counting_server_serves :
  serves counting_server 0 None
         [mkPage [1; 2] (Some "x"); mkPage [3] (Some EmptyString)] 2.
Proof.
  eapply serves_more; [reflexivity | reflexivity | discriminate |].
  apply serves_last; [reflexivity | by right].
Qed.

(** C10 (witness): the second page carries the empty cursor; the server
    would go on serving pages, but none is asked for. *)
Lemma listAll_stops_at_falsy_cursor_witness :
  ∃ sent, listAllTools counting_sdk 5 (new_client true) 0
          = Some (Ok [1; 2; 3], 2, sent) ∧ length sent = 2.
Proof.
  apply (proj1 (listAll_stops_at_falsy_cursor counting_sdk (new_client true) 5 eq_refl)
           0 2 [mkPage [1; 2] (Some "x"); mkPage [3] (Some EmptyString)]).
  - exact counting_server_serves.
  - simpl. lia.
Defined.

Example listAll_empty_cursor_run :
  listAllResources counting_sdk 5 (new_client true) 0
  = Some (Ok [1; 2; 3], 2, [None; Some "x"]).
Proof. reflexivity. Qed.

Example listAll_not_connected :
  listAllPrompts counting_sdk 5 (new_client false) 0
  = Some (Throw (MCPConnectionError "Not connected to MCP server. Call connect() first."),
          0, []).
Proof. reflexivity. Qed.

End ClientSpec.

(* ===================================================================== *)
(** * Properties of MCPClientManager *)
(* ===================================================================== *)

Module ManagerSpec.
Import Manager.

Implicit Types (mgr : MCPClientManager) (config : MCPServerConfig).

(** ** addServer *)

(** C3 (counterexample): a config with both [command] and [url] is
    not rejected: on an empty manager, with a server that accepts the
    connection, [addServer('both', {command: 'npx', url: 'http://localhost:3000/mcp'})]
    succeeds, builds the HTTP client from [url], and registers it. *)
Lemma addServer_accepts_both_shapes :
  let config := config_of (Some "npx") (Some "http://localhost:3000/mcp") in
  let added := addServer (λ _, Ok 1) "both" config (manager_with ∅) in
  truthy (command config) = true ∧ truthy (url config) = true ∧
  added.1.1 = Ok 1 ∧
  hasServer "both" added.1.2 = true ∧
  added.2 = [FromHTTP (httpOptions no_options config)].
Proof. vm_compute. done. Qed.

(** C3 (as amended): what [addServer(name, config)] validates.
    A config with neither a non-empty [command] nor a non-empty [url]
    fails, with the configuration error when the name is free; a name
    that is already registered fails with the already-exists error; in
    both cases no client is constructed and the registry is unchanged.
    A config with both is not rejected: the HTTP client is constructed
    from [url] with [command] ignored, and is registered under [name] when
    connecting succeeds. *)
Theorem addServer_validation (connect : Factory → Result nat) name config mgr :
  (truthy (command config) = false → truthy (url config) = false →
   ∃ e, addServer connect name config mgr = (Throw e, mgr, []) ∧
        (clients mgr !! name = None → e = config_error)) ∧
  (is_Some (clients mgr !! name) →
   addServer connect name config mgr = (Throw (exists_error name), mgr, [])) ∧
  (truthy (command config) = true → truthy (url config) = true →
   clients mgr !! name = None →
   let made := FromHTTP (httpOptions (defaultClientOptions mgr) config) in
   addServer connect name config mgr
   = match connect made with
     | Ok client => (Ok client, with_clients (<[name := client]> (clients mgr)) mgr, [made])
     | Throw e => (Throw e, mgr, [made])
     end).
Proof.
  split_and!.
  - intros Hcommand Hurl. unfold addServer, createClient.
    rewrite Hcommand, Hurl. case_bool_decide as Hname.
    + eexists. split; [done|]. intros Hfree. rewrite Hfree in Hname. by destruct Hname.
    + eexists. split; done.
  - intros Hname. unfold addServer. by rewrite bool_decide_eq_true_2.
  - intros _ Hurl Hfree made. unfold addServer, createClient.
    rewrite Hurl, Hfree. rewrite bool_decide_eq_false_2 by (by intros [? ?]).
    fold made. by destruct (connect made).
Qed.

(** C3 (witness): an empty config on a manager that has a server, under
    a fresh name. *)
Lemma addServer_validation_witness :
  let mgr := manager_with {[ "fs" := 1 ]} in
  addServer (λ _, Ok 2) "test" (config_of None None) mgr = (Throw config_error, mgr, []) ∧
  addServer (λ _, Ok 2) "fs" (config_of (Some "cmd") None) mgr
  = (Throw (exists_error "fs"), mgr, []).
Proof.
  intros mgr.
  destruct (addServer_validation (λ _, Ok 2) "test" (config_of None None) mgr)
    as [Hneither _].
  destruct (addServer_validation (λ _, Ok 2) "fs" (config_of (Some "cmd") None) mgr)
    as (_ & Hdup & _).
  split.
  - destruct (Hneither eq_refl eq_refl) as (e & -> & He). by rewrite He.
  - apply Hdup. by exists 1.
Defined.

(** ** callTool *)

Lemma split_not_nil sep s : split sep s ≠ [].
Proof.
  destruct s as [|c s]; simpl; [done|].
  case_decide; [done|]. by destruct (split sep s).
Qed.

(** [parts.join(sep)] puts the head before the separator and the rest. *)
Lemma join_cons sep part parts :
  parts ≠ [] → join sep (part :: parts) = part +:+ sep +:+ join sep parts.
Proof. by destruct parts. Qed.

Lemma join_cons_char sep c part parts :
  join sep (String c part :: parts) = String c (join sep (part :: parts)).
Proof. by destruct parts. Qed.

(** Joining what [split] produced gives the string back. *)
Lemma join_split sep s : join (String sep EmptyString) (split sep s) = s.
Proof.
  induction s as [|c s IH]; simpl; [done|].
  case_decide as Hc.
  - subst c. rewrite join_cons by apply split_not_nil. simpl. by rewrite IH.
  - pose proof (split_not_nil sep s) as Hnil.
    destruct (split sep s) as [|part parts]; [done|].
    by rewrite join_cons_char, IH.
Qed.

(** The first separator is where the first part ends. *)
Lemma split_first sep s r :
  contains sep s = false →
  split sep (s +:+ String sep r) = s :: split sep r.
Proof.
  induction s as [|c s IH]; simpl.
  - intros _. by rewrite decide_True.
  - intros [Hc Hs]%orb_false_elim. apply bool_decide_eq_false in Hc.
    rewrite decide_False by done. by rewrite IH.
Qed.

Lemma split_no_separator sep s : contains sep s = false → split sep s = [s].
Proof.
  induction s as [|c s IH]; simpl; [done|].
  intros [Hc Hs]%orb_false_elim. apply bool_decide_eq_false in Hc.
  rewrite decide_False by done. by rewrite IH.
Qed.

(** C7 (counterexample): a registered server name that itself
    contains a dot.  With servers [a.b] and [a] registered, the name
    [a.b] + [.] + [t] is routed to the client of [a] with tool name [b.t],
    not to the client of [a.b] with tool name [t]; with only [a.b]
    registered the call fails with an unknown-server error. *)
Lemma callTool_dotted_server_name :
  let both := manager_with {[ "a.b" := 1; "a" := 2 ]} in
  let only := manager_with {[ "a.b" := 1 ]} in
  clients both !! "a.b" = Some 1 ∧ clients only !! "a.b" = Some 1 ∧
  callTool ("a.b" +:+ "." +:+ "t") None both = Delegates 2 "b.t" None ∧
  callTool ("a.b" +:+ "." +:+ "t") None only = Throws (Error "Unknown server: a") ∧
  callTool ("a.b" +:+ "." +:+ "t") None both ≠ Delegates 1 "t" None ∧
  callTool ("a.b" +:+ "." +:+ "t") None only ≠ Delegates 1 "t" None.
Proof. vm_compute. split_and!; done. Qed.

(** C7 (as amended): [callTool] splits at the first dot.
    For a name [s.r] whose server part [s] is non-empty, contains no dot
    and is registered, the call goes to the client registered under [s]
    with the remainder [r], dots and all, as the tool name.  When the
    part before the first dot is empty or not registered, and when the
    name has no dot at all, [callTool] throws and no client is called. *)
Theorem callTool_splits_at_first_dot mgr (args : option string) :
  (∀ s r client,
     s ≠ EmptyString → contains dot s = false → clients mgr !! s = Some client →
     callTool (s +:+ "." +:+ r) args mgr = Delegates client r args) ∧
  (∀ s r,
     contains dot s = false → s = EmptyString ∨ clients mgr !! s = None →
     ∃ message, callTool (s +:+ "." +:+ r) args mgr = Throws (Error message)) ∧
  (∀ name,
     contains dot name = false →
     callTool name args mgr = Throws (Error ("Invalid tool name: " +:+ name))).
Proof.
  assert (Hsplit : ∀ s r, contains dot s = false →
            split dot (s +:+ "." +:+ r) = s :: split dot r).
  { intros s r Hs. by apply (split_first dot s r). }
  assert (Hlen : ∀ r, bool_decide (length (split dot r) = 0) = false).
  { intros r. apply bool_decide_eq_false. pose proof (split_not_nil dot r).
    by destruct (split dot r). }
  split_and!.
  - intros s r client Hne Hdot Hclient. unfold callTool.
    rewrite (Hsplit s r Hdot), Hlen, Hclient, join_split.
    by rewrite bool_decide_eq_false_2.
  - intros s r Hdot Hs. unfold callTool. rewrite (Hsplit s r Hdot), Hlen.
    case_bool_decide as Hempty; simpl; [eauto|].
    destruct Hs as [?|Hnone]; [done|]. rewrite Hnone. eauto.
  - intros name Hname. unfold callTool. rewrite (split_no_separator _ _ Hname); simpl.
    by rewrite orb_true_r.
Qed.

(** C7 (witness): the remainder keeps its dots. *)
Lemma callTool_splits_at_first_dot_witness :
  callTool "fs.read.file.v2" (Some "{}") (manager_with {[ "fs" := 1; "git" := 2 ]})
  = Delegates 1 "read.file.v2" (Some "{}").
Proof.
  apply (proj1 (callTool_splits_at_first_dot
                  (manager_with {[ "fs" := 1; "git" := 2 ]}) (Some "{}"))
           "fs" "read.file.v2" 1); [discriminate | reflexivity | reflexivity].
Defined.

(** The cases of the unit tests. *)
Example callTool_examples :
  let mgr := manager_with {[ "fs" := 1; "git" := 2 ]} in
  callTool "fs.read_file" None mgr = Delegates 1 "read_file" None ∧
  callTool "unknown.tool" None mgr = Throws (Error "Unknown server: unknown") ∧
  callTool EmptyString None mgr = Throws (Error "Invalid tool name: ") ∧
  callTool ".tool" None mgr = Throws (Error "Invalid tool name: .tool") ∧
  callTool "fs." None mgr = Delegates 1 EmptyString None.
Proof. vm_compute. done. Qed.

End ManagerSpec.

(* ===================================================================== *)
(** * Properties of aggregateMCPTools *)
(* ===================================================================== *)

Module RunnerSpec.
Import Runner.

Implicit Types (c : ClientView) (t : Tool) (toolMap : gmap string MCPToolInfo).

Lemma namespacedName_inj serverName t t' :
  namespacedName serverName t = namespacedName serverName t' → name t = name t'.
Proof.
  unfold namespacedName. intros Heq.
  apply (inj (String.app serverName)) in Heq. by apply (inj (String.app ".")) in Heq.
Qed.

(** ** The inner loop *)

Lemma add_tools_cons c t tools toolMap :
  add_tools c (t :: tools) toolMap
  = add_tools c tools (<[namespacedName (serverName_of c) t := tool_info c t]> toolMap).
Proof. done. Qed.

Lemma add_tools_app c tools tools' toolMap :
  add_tools c (tools ++ tools') toolMap = add_tools c tools' (add_tools c tools toolMap).
Proof. unfold add_tools. by rewrite foldl_app. Qed.

Lemma add_tools_other c tools toolMap k :
  (∀ t, t ∈ tools → namespacedName (serverName_of c) t ≠ k) →
  add_tools c tools toolMap !! k = toolMap !! k.
Proof.
  revert toolMap. induction tools as [|t tools IH]; intros toolMap Hk; [done|].
  rewrite add_tools_cons, IH.
  - apply lookup_insert_ne, Hk. by left.
  - intros t' Ht'. apply Hk. by right.
Qed.

Lemma add_tools_origin c tools toolMap k info :
  add_tools c tools toolMap !! k = Some info →
  toolMap !! k = Some info ∨
  ∃ t, t ∈ tools ∧ k = namespacedName (serverName_of c) t ∧ info = tool_info c t.
Proof.
  revert toolMap. induction tools as [|t tools IH]; intros toolMap; [by left|].
  rewrite add_tools_cons. intros [Hin|(t' & Ht' & -> & ->)]%IH.
  - apply lookup_insert_Some in Hin as [[<- <-]|[_ Hin]]; [|by left].
    right. exists t. split; [by left|done].
  - right. exists t'. split; [by right|done].
Qed.

Lemma add_tools_keeps c tools toolMap k :
  is_Some (toolMap !! k) → is_Some (add_tools c tools toolMap !! k).
Proof.
  revert toolMap. induction tools as [|t tools IH]; intros toolMap Hk; [done|].
  rewrite add_tools_cons. apply IH. rewrite lookup_insert_is_Some.
  destruct (decide (namespacedName (serverName_of c) t = k)); auto.
Qed.

Lemma add_tools_present c tools toolMap t :
  t ∈ tools → is_Some (add_tools c tools toolMap !! namespacedName (serverName_of c) t).
Proof.
  intros (before & after & ->)%list_elem_of_split.
  rewrite add_tools_app, add_tools_cons. apply add_tools_keeps.
  rewrite lookup_insert_eq. eauto.
Qed.

(** Within one client, the last tool of a name is the one that stays. *)
Lemma add_tools_last c before t after toolMap :
  (∀ t', t' ∈ after → name t' ≠ name t) →
  add_tools c (before ++ t :: after) toolMap !! namespacedName (serverName_of c) t
  = Some (tool_info c t).
Proof.
  intros Hafter. rewrite add_tools_app, add_tools_cons, add_tools_other.
  - apply lookup_insert_eq.
  - intros t' Ht' Heq. by apply (Hafter t' Ht'), (namespacedName_inj (serverName_of c)).
Qed.

(** ** The outer loop *)

Lemma aggregate_loop_app clients clients' toolMap :
  aggregate_loop (clients ++ clients') toolMap
  = match aggregate_loop clients toolMap with
    | Ok toolMap' => aggregate_loop clients' toolMap'
    | Throw e => Throw e
    end.
Proof.
  revert toolMap. induction clients as [|c clients IH]; intros toolMap; simpl; [done|].
  destruct (listAllTools c); [apply IH|done].
Qed.

(** No collision raises an error: the loop fails only if a client's
    [listAllTools()] does. *)
Lemma aggregate_loop_ok clients toolMap :
  Forall (λ c, ∃ tools, listAllTools c = Ok tools) clients →
  ∃ toolMap', aggregate_loop clients toolMap = Ok toolMap'.
Proof.
  intros Hok. revert toolMap.
  induction Hok as [|c clients [tools Hc] _ IH]; intros toolMap; simpl; [eauto|].
  rewrite Hc. apply IH.
Qed.

Lemma aggregate_loop_other clients toolMap toolMap' k :
  aggregate_loop clients toolMap = Ok toolMap' →
  (∀ c tools t, c ∈ clients → listAllTools c = Ok tools → t ∈ tools →
                namespacedName (serverName_of c) t ≠ k) →
  toolMap' !! k = toolMap !! k.
Proof.
  revert toolMap. induction clients as [|c clients IH]; intros toolMap; simpl.
  - by intros [= <-].
  - destruct (listAllTools c) as [tools|] eqn:Hc; [|done].
    intros Hloop Hk. rewrite (IH _ Hloop).
    + apply add_tools_other. intros t Ht. apply (Hk c tools t); [by left|done..].
    + intros c' tools' t' Hc'. apply Hk. by right.
Qed.

Lemma aggregate_loop_origin clients toolMap toolMap' k info :
  aggregate_loop clients toolMap = Ok toolMap' →
  toolMap' !! k = Some info →
  toolMap !! k = Some info ∨
  ∃ c tools t, c ∈ clients ∧ listAllTools c = Ok tools ∧ t ∈ tools ∧
               k = namespacedName (serverName_of c) t ∧ info = tool_info c t.
Proof.
  revert toolMap. induction clients as [|c clients IH]; intros toolMap; simpl.
  - intros [= <-]. by left.
  - destruct (listAllTools c) as [tools|] eqn:Hc; [|done].
    intros Hloop Hk. destruct (IH _ Hloop Hk) as [Hin|(c' & tools' & t' & Hc' & Hrest)].
    + apply add_tools_origin in Hin as [Hin|(t & Ht & -> & ->)]; [by left|].
      right. exists c, tools, t. split; [by left|done].
    + right. exists c', tools', t'. split; [by right|done].
Qed.

Lemma aggregate_loop_keeps clients toolMap toolMap' k :
  aggregate_loop clients toolMap = Ok toolMap' →
  is_Some (toolMap !! k) → is_Some (toolMap' !! k).
Proof.
  revert toolMap. induction clients as [|c clients IH]; intros toolMap; simpl.
  - by intros [= <-].
  - destruct (listAllTools c) as [tools|]; [|done].
    intros Hloop Hk. apply (IH _ Hloop). by apply add_tools_keeps.
Qed.

Lemma aggregate_loop_present clients toolMap toolMap' c tools t :
  aggregate_loop clients toolMap = Ok toolMap' →
  c ∈ clients → listAllTools c = Ok tools → t ∈ tools →
  is_Some (toolMap' !! namespacedName (serverName_of c) t).
Proof.
  intros Hloop (before & after & ->)%list_elem_of_split Hc Ht.
  rewrite aggregate_loop_app in Hloop.
  destruct (aggregate_loop before toolMap) as [toolMap1|]; [|done].
  simpl in Hloop. rewrite Hc in Hloop.
  apply (aggregate_loop_keeps _ _ _ _ Hloop). by apply add_tools_present.
Qed.

(** C9: keys and collisions of [aggregateMCPTools].
    When every client lists its tools, the aggregation succeeds (a
    collision raises nothing) and, in the map it returns: every tool of
    every client has an entry under [<namespace>.<toolName>], and every
    entry is such a tool's, the namespace being the name the client
    reports, or the literal [unknown] when it reports no identity; and
    the entry under a key is the one written last: that of the last tool
    yielding the key in the last client of the list that yields it, so a
    later client overwrites an earlier one. *)
Theorem aggregateMCPTools_last_write_wins (clients : list ClientView) :
  Forall (λ c, ∃ tools, listAllTools c = Ok tools) clients →
  ∃ toolMap,
    aggregateMCPTools clients = Ok toolMap ∧
    (∀ c tools t, c ∈ clients → listAllTools c = Ok tools → t ∈ tools →
                  is_Some (toolMap !! (serverName_of c +:+ "." +:+ name t))) ∧
    (∀ k info, toolMap !! k = Some info →
               ∃ c tools t, c ∈ clients ∧ listAllTools c = Ok tools ∧ t ∈ tools ∧
                            k = serverName_of c +:+ "." +:+ name t ∧
                            info = tool_info c t) ∧
    (∀ c, (getServerInfo c = None → serverName_of c = "unknown") ∧
          (∀ serverInfo, getServerInfo c = Some serverInfo →
                         serverName_of c = impl_name serverInfo)) ∧
    (∀ earlier c later tools_before t tools_after,
       clients = earlier ++ c :: later →
       listAllTools c = Ok (tools_before ++ t :: tools_after) →
       (∀ t', t' ∈ tools_after → name t' ≠ name t) →
       (∀ c' tools' t', c' ∈ later → listAllTools c' = Ok tools' → t' ∈ tools' →
                        namespacedName (serverName_of c') t'
                        ≠ namespacedName (serverName_of c) t) →
       toolMap !! namespacedName (serverName_of c) t = Some (tool_info c t)).
Proof.
  intros Hok. unfold aggregateMCPTools.
  destruct (aggregate_loop_ok clients ∅ Hok) as [toolMap Hloop].
  exists toolMap. split_and!; [done| | | |].
  - intros c tools t. by apply (aggregate_loop_present clients ∅).
  - intros k info Hk.
    destruct (aggregate_loop_origin _ _ _ _ _ Hloop Hk) as [Hempty|?]; [|done].
    by rewrite lookup_empty in Hempty.
  - intros c. unfold serverName_of. split.
    + by intros ->.
    + by intros serverInfo ->.
  - intros earlier c later tools_before t tools_after -> Hc Hafter Hlater.
    rewrite aggregate_loop_app in Hloop.
    destruct (aggregate_loop earlier ∅) as [toolMap1|]; [|done].
    simpl in Hloop. rewrite Hc in Hloop.
    rewrite (aggregate_loop_other _ _ _ _ Hloop Hlater).
    by apply add_tools_last.
Qed.

(** C9 (witness): clients 1 and 3 both report [fs] and both have a tool
    [run]; client 2 reports no identity.  The entry [fs.run] is client
    3's, and client 2's tool is under [unknown.run]. *)
Lemma aggregateMCPTools_last_write_wins_witness :
  ∃ toolMap,
    aggregateMCPTools example_clients = Ok toolMap ∧
    toolMap !! "fs.run"
    = Some (tool_info later_fs_client (mkTool "run" (Some "second") None)) ∧
    is_Some (toolMap !! "unknown.run").
Proof.
  assert (Hok : Forall (λ c, ∃ tools, listAllTools c = Ok tools) example_clients).
  { repeat constructor; eexists; reflexivity. }
  destruct (aggregateMCPTools_last_write_wins example_clients Hok)
    as (toolMap & Hmap & Hpresent & _ & _ & Hlast).
  exists toolMap. split_and!; [exact Hmap | |].
  - apply (Hlast [fs_client; anonymous_client] later_fs_client [] []
                 (mkTool "run" (Some "second") None) []); [reflexivity..| |].
    + by intros t' ?%elem_of_nil.
    + by intros c' tools' t' ?%elem_of_nil.
  - apply (Hpresent anonymous_client [mkTool "run" None None] (mkTool "run" None None)).
    + unfold example_clients. set_solver.
    + reflexivity.
    + set_solver.
Defined.

(** The scenario of the unit tests: two servers, each with a tool [run]. *)
Example aggregateMCPTools_two_servers :
  let fs := {| ref := 1; getServerInfo := Some (mkImplementation "fs" "1");
               listAllTools := Ok [mkTool "run" None None] |} in
  let git := {| ref := 2; getServerInfo := Some (mkImplementation "git" "1");
                listAllTools := Ok [mkTool "run" None None] |} in
  ∃ toolMap,
    aggregateMCPTools [fs; git] = Ok toolMap ∧
    (client <$> toolMap !! "fs.run") = Some 1 ∧
    (originalName <$> toolMap !! "fs.run") = Some "run" ∧
    (client <$> toolMap !! "git.run") = Some 2 ∧
    size toolMap = 2.
Proof. eexists. split; [reflexivity|]. vm_compute. done. Qed.

End RunnerSpec.

(* ===================================================================== *)
(** * Properties of token generation and of notification dispatch *)
(* ===================================================================== *)

Module RegistriesSpec.
Import Registries.

(** ** Generated ids *)

Lemma pretty_N_go_dash x s :
  Manager.contains (Ascii.ascii_of_nat 45) (pretty_N_go x s)
  = Manager.contains (Ascii.ascii_of_nat 45) s.
Proof.
  revert s. induction (N.lt_wf_0 x) as [x _ IH]; intros s.
  assert (x = 0 ∨ 0 < x)%N as [->|Hpos] by lia.
  - by rewrite pretty_N_go_0.
  - rewrite pretty_N_go_step by done. rewrite IH by (by apply N.div_lt).
    simpl. unfold pretty_N_char. by repeat case_match.
Qed.

(** The decimal text of a number holds no dash. *)
Lemma pretty_N_dash (x : N) :
  Manager.contains (Ascii.ascii_of_nat 45) (pretty x) = false.
Proof.
  unfold pretty, pretty_N. case_decide; [done|]. by rewrite pretty_N_go_dash.
Qed.

(** Two texts [a-b] and [a'-b'] whose first parts hold no dash are equal
    only if their second parts are. *)
Lemma dash_separates a a' b b' :
  Manager.contains (Ascii.ascii_of_nat 45) a = false →
  Manager.contains (Ascii.ascii_of_nat 45) a' = false →
  a +:+ "-" +:+ b = a' +:+ "-" +:+ b' → b = b'.
Proof.
  revert a'. induction a as [|c a IH]; intros [|c' a']; simpl.
  - intros _ _ Heq. by simplify_eq/=.
  - intros _ [Hc _]%orb_false_elim Heq. apply bool_decide_eq_false in Hc.
    by simplify_eq/=.
  - intros [Hc _]%orb_false_elim _ Heq. apply bool_decide_eq_false in Hc.
    by simplify_eq/=.
  - intros [_ Ha]%orb_false_elim [_ Ha']%orb_false_elim Heq.
    apply (IH a'); [done..|]. by simplify_eq/=.
Qed.

Lemma stamped_inj (prefix : string) (now now' counter counter' : N) :
  prefix +:+ pretty now +:+ "-" +:+ pretty counter
  = prefix +:+ pretty now' +:+ "-" +:+ pretty counter' →
  counter = counter'.
Proof.
  intros Heq%(inj (String.app prefix)).
  apply dash_separates in Heq; [|apply pretty_N_dash..].
  by apply (inj pretty).
Qed.

Lemma cancel_counter (id : string) (m : Cancellation.CancellationManager string) :
  Cancellation.counter (Cancellation.cancel id m).2 = Cancellation.counter m.
Proof.
  unfold Cancellation.cancel. by destruct (Cancellation.pendingRequests m !! id).
Qed.

Lemma generateRequestIds_counters calls m id :
  id ∈ generateRequestIds calls m →
  ∃ now counter : N, id = "req-" +:+ pretty now +:+ "-" +:+ pretty counter ∧
                     (Cancellation.counter m ≤ counter)%N.
Proof.
  revert m. induction calls as [|call calls IH]; intros m; simpl.
  { by intros ?%elem_of_nil. }
  destruct call as [now|requestId|requestId|requestId|].
  - intros [->|Hin]%elem_of_cons.
    + exists now, (Cancellation.counter m). split; [done|lia].
    + apply IH in Hin as (now' & counter & -> & Hle). simpl in Hle.
      exists now', counter. split; [done|lia].
  - intros (now' & counter & -> & Hle)%IH. by exists now', counter.
  - intros (now' & counter & -> & Hle)%IH. by exists now', counter.
  - intros (now' & counter & -> & Hle)%IH. rewrite cancel_counter in Hle.
    by exists now', counter.
  - intros (now' & counter & -> & Hle)%IH. by exists now', counter.
Qed.

(** X1: the request ids a manager generates are pairwise distinct,
    whatever the clock says at each call (also when it stands still or
    goes back) and whatever is created, completed or cancelled in
    between. *)
Theorem generateRequestIds_distinct (calls : list ManagerCall)
    (m : Cancellation.CancellationManager string) :
  NoDup (generateRequestIds calls m).
Proof.
  revert m. induction calls as [|call calls IH]; intros m; simpl; [constructor|].
  destruct call; try apply IH.
  constructor; [|apply IH].
  intros (now' & counter & Heq & Hle)%generateRequestIds_counters.
  apply stamped_inj in Heq. simpl in Hle. lia.
Qed.

Lemma generateTokens_counters calls t token :
  token ∈ generateTokens calls t →
  ∃ now counter : N, token = "progress-" +:+ pretty now +:+ "-" +:+ pretty counter ∧
                     (Progress.counter t ≤ counter)%N.
Proof.
  revert t. induction calls as [|call calls IH]; intros t; simpl.
  { by intros ?%elem_of_nil. }
  destruct call as [now|token' callback|token'|].
  - intros [->|Hin]%elem_of_cons.
    + exists now, (Progress.counter t). split; [done|lia].
    + apply IH in Hin as (now' & counter & -> & Hle). simpl in Hle.
      exists now', counter. split; [done|lia].
  - intros (now' & counter & -> & Hle)%IH. by exists now', counter.
  - intros (now' & counter & -> & Hle)%IH. by exists now', counter.
  - intros (now' & counter & -> & Hle)%IH. by exists now', counter.
Qed.

(** X2: the progress tokens a tracker generates are pairwise distinct,
    whatever the clock says at each call and whatever is registered,
    unregistered or cleared in between. *)
Theorem generateTokens_distinct (calls : list TrackerCall) (t : Progress.ProgressTracker) :
  NoDup (generateTokens calls t).
Proof.
  revert t. induction calls as [|call calls IH]; intros t; simpl; [constructor|].
  destruct call; try apply IH.
  constructor; [|apply IH].
  intros (now' & counter & Heq & Hle)%generateTokens_counters.
  apply stamped_inj in Heq. simpl in Hle. lia.
Qed.

(** ** cancelAll *)

(** X3: [cancelAll()] releases every pending request.  On a manager
    whose tracked controllers are in the store, afterwards the manager
    is empty, every controller that was pending is aborted, and for every
    id a [cancel] answers [false] and a [complete] changes nothing. *)
Theorem cancelAll_releases_all (m : Cancellation.CancellationManager string) :
  Cancellation.wf m →
  Cancellation.size (Cancellation.cancelAll m) = 0 ∧
  (∀ id controller, Cancellation.getSignal id m = Some controller →
                    Cancellation.aborted controller (Cancellation.cancelAll m) = true) ∧
  (∀ id, Cancellation.isPending id (Cancellation.cancelAll m) = false ∧
         Cancellation.cancel id (Cancellation.cancelAll m)
         = (false, Cancellation.cancelAll m) ∧
         Cancellation.complete id (Cancellation.cancelAll m) = Cancellation.cancelAll m).
Proof.
  intros Hwf. split_and!.
  - unfold Cancellation.size; simpl. apply map_size_empty.
  - intros id controller Hc.
    apply (CancellationSpec.cancelAll_aborts m) with id; [done|]. by apply (Hwf id).
  - intros id.
    assert (Hnone : Cancellation.pendingRequests (Cancellation.cancelAll m) !! id = None)
      by apply lookup_empty.
    split_and!.
    + by apply CancellationSpec.isPending_false.
    + by apply CancellationSpec.cancel_not_pending.
    + by apply CancellationSpec.complete_not_pending.
Qed.

(** X3 (witness): two requests in flight. *)
Lemma cancelAll_releases_all_witness :
  let m := (Cancellation.create "b" (Cancellation.create "a" Cancellation.empty).2).2 in
  Cancellation.size m = 2 ∧
  Cancellation.size (Cancellation.cancelAll m) = 0 ∧
  Cancellation.aborted 0 (Cancellation.cancelAll m) = true ∧
  Cancellation.aborted 1 (Cancellation.cancelAll m) = true.
Proof.
  intros m.
  assert (Hwf : Cancellation.wf m).
  { apply CancellationSpec.create_wf, CancellationSpec.create_wf,
      CancellationSpec.empty_wf. }
  destruct (cancelAll_releases_all m Hwf) as (Hsize & Haborted & _).
  split_and!.
  - reflexivity.
  - exact Hsize.
  - by apply (Haborted "a").
  - by apply (Haborted "b").
Defined.

(** ** handleProgress *)

(** X4: progress delivery.  A notification for a token invokes the
    callback registered last under that token, once, with the
    notification's fields as they came (an absent [total] or [message]
    stays absent), and ends as that call ends: an exception of the
    callback is not caught.  A notification for a token that is not
    registered, or no longer, invokes nothing and raises nothing.
    Registering or unregistering another token changes none of this. *)
Theorem handleProgress_delivery (call : nat → ProgressInfo → Result unit)
    (n : ProgressNotification) (t : Progress.ProgressTracker) :
  (∀ callback earlier,
     handleProgress call n
       (Progress.register (progressToken n) callback
          (Progress.register (progressToken n) earlier t))
     = (call callback (info_of n), [(callback, info_of n)])) ∧
  (Progress.hasCallback (progressToken n) t = false →
   handleProgress call n t = (Ok tt, [])) ∧
  handleProgress call n (Progress.unregister (progressToken n) t) = (Ok tt, []) ∧
  handleProgress call n (Progress.clear t) = (Ok tt, []) ∧
  (∀ token callback, token ≠ progressToken n →
     handleProgress call n (Progress.register token callback t) = handleProgress call n t ∧
     handleProgress call n (Progress.unregister token t) = handleProgress call n t).
Proof.
  unfold handleProgress. split_and!.
  - intros callback earlier; simpl. by rewrite lookup_insert_eq.
  - unfold Progress.hasCallback. intros Hno%bool_decide_eq_false.
    destruct (Progress.callbacks t !! progressToken n); [|done].
    destruct Hno. eauto.
  - simpl. by rewrite lookup_delete_eq.
  - simpl. by rewrite lookup_empty.
  - intros token callback Hne; simpl.
    by rewrite lookup_insert_ne, lookup_delete_ne.
Qed.

(** ** handleStatus *)




(** A first subscriber that throws does not keep the status from the
    second. *)
Example handleStatus_after_throwing_subscriber :
  let task := Tasks.mkTask "task-1" Tasks.running None None in
  let throws_for_1 := λ (callback : nat) (_ : Tasks.Task),
    if decide (callback = 1) then Throw (Error "subscriber failed") else Ok tt in
  let m := (Tasks.subscribe "task-1" 2 (Tasks.subscribe "task-1" 1 Tasks.empty).2).2 in
  handleStatus throws_for_1 task m = (Ok tt, [1; 2]).
Proof. reflexivity. Qed.



End RegistriesSpec.

(* ===================================================================== *)
(** * Further properties of waitForTask *)
(* ===================================================================== *)

Module PollingSpec.
Import Tasks.

(** What an iteration that goes round again looks like. *)
Lemma leaves_loop_false options start p :
  leaves_loop options start p = false →
  signal options && aborted_at_head p = false ∧
  timeout_exceeded (timeout options) start (now_at_head p) = None ∧
  ∃ task, getTask p = Ok task ∧
          onStatus options ≫= (λ _, onStatus_throws p) = None ∧
          terminal (state task) = false ∧
          sleep (signal options) (aborted_at_sleep p) (sleep_end p) = Ok tt.
Proof.
  unfold leaves_loop.
  intros [[Habort Htimeout]%orb_false_elim Hrest]%orb_false_elim.
  split; [done|]. split.
  { apply bool_decide_eq_false in Htimeout. by apply eq_None_not_Some. }
  destruct (getTask p) as [task|]; [|done]. exists task. split; [done|].
  apply orb_false_elim in Hrest as [[Hcb Hterm]%orb_false_elim Hsleep].
  split_and!; [|done|].
  - apply bool_decide_eq_false in Hcb. by apply eq_None_not_Some.
  - by destruct (sleep _ _ _) as [[]|].
Qed.

(** Iterations that go round again are passed through; each ends with
    a sleep. *)
Lemma poll_loop_passes taskId options start before rest m events :
  Forall (λ p, leaves_loop options start p = false) before →
  ∃ m1 events1,
    poll_loop taskId options start (before ++ rest) m events
    = poll_loop taskId options start rest m1 events1 ∧
    (last events ≠ Some GetTaskCalled → last events1 ≠ Some GetTaskCalled).
Proof.
  intros Hbefore. revert m events.
  induction Hbefore as [|p before Hp _ IH]; intros m events; simpl; [eauto|].
  apply leaves_loop_false in Hp
    as (-> & -> & task & -> & -> & -> & ->).
  edestruct IH as (m1 & events1 & -> & Hlast). exists m1, events1. split; [done|].
  intros _. apply Hlast. rewrite last_snoc. by intros [= ?].
Qed.

(** X7: a result only from a terminal snapshot.  When [waitForTask]
    returns a result, the polls before the last one all found the task
    in a state that is not terminal, the last one found it [completed],
    [failed] or [canceled], and the result is what [getTaskResult]
    answered then. *)
Theorem waitForTask_result_is_terminal taskId options env m r m' events :
  waitForTask taskId options env m = Some (Ok r, m', events) →
  ∃ before p after task,
    polls env = before ++ p :: after ∧
    Forall (λ q, ∃ t, getTask q = Ok t ∧ terminal (state t) = false) before ∧
    getTask p = Ok task ∧ terminal (state task) = true ∧
    getTaskResult p = Ok r.
Proof.
  unfold waitForTask. destruct (signal options && aborted_at_entry env); [done|].
  destruct (poll_loop _ _ _ _ _ _) as [[[r2 m2] events2]|] eqn:Hloop; [|done].
  intros [= -> _ _]. revert Hloop.
  generalize (subscribe_onStatus taskId options m).2 (@nil WaitEvent).
  induction (polls env) as [|p ps IH]; intros m1 events1; simpl; [done|].
  destruct (signal options && aborted_at_head p); [done|].
  destruct (timeout_exceeded _ _ _); [done|].
  destruct (getTask p) as [task|] eqn:Htask; [|done].
  destruct (onStatus options ≫= _); [done|].
  destruct (terminal (state task)) eqn:Hterm.
  - intros [= Hr _ _]. exists [], p, ps, task. by split_and!.
  - destruct (sleep _ _ _); [|done].
    intros (before & q & after & task' & -> & Hbefore & Hrest)%IH.
    exists (p :: before), q, after, task'. split_and!; [done| |apply Hrest..].
    constructor; eauto.
Qed.

(** X7 (witness): the run of the unit test with states pending, running,
    completed. *)
Lemma waitForTask_result_is_terminal_witness :
  ∃ before p after task,
    [quiet_poll 0 pending TimerFires; quiet_poll 10 running TimerFires;
     quiet_poll 20 completed TimerFires] = before ++ p :: after ∧
    Forall (λ q, ∃ t, getTask q = Ok t ∧ terminal (state t) = false) before ∧
    getTask p = Ok task ∧ terminal (state task) = true ∧
    getTaskResult p = Ok (mkTaskResult "task-1" (Some "42") None).
Proof.
  exact (waitForTask_result_is_terminal "task-1" (mkOptions (Some 10%Z) None (Some 7) false)
           (mkEnv 0 false [quiet_poll 0 pending TimerFires;
                           quiet_poll 10 running TimerFires;
                           quiet_poll 20 completed TimerFires])
           empty (mkTaskResult "task-1" (Some "42") None) _ _ eq_refl).
Defined.

Lemma poll_loop_timeout_zero taskId pollInterval onStatus signal start ps m events :
  poll_loop taskId (mkOptions pollInterval (Some 0%Z) onStatus signal) start ps m events
  = poll_loop taskId (mkOptions pollInterval None onStatus signal) start ps m events.
Proof.
  revert m events. induction ps as [|p ps IH]; intros m events; simpl; [done|].
  destruct (signal && aborted_at_head p); [done|].
  destruct (getTask p) as [task|]; [|done].
  destruct (onStatus ≫= _); [done|].
  destruct (terminal (state task)); [done|].
  destruct (sleep _ _ _); [|done]. apply IH.
Qed.

(** X8: a timeout of 0 is no timeout.  [waitForTask] with
    [timeout: 0] behaves in every environment as with no timeout at all:
    it does not fail at once, and it never fails for the time elapsed. *)
Theorem waitForTask_timeout_zero taskId pollInterval onStatus signal env m :
  waitForTask taskId (mkOptions pollInterval (Some 0%Z) onStatus signal) env m
  = waitForTask taskId (mkOptions pollInterval None onStatus signal) env m.
Proof.
  unfold waitForTask, subscribe_onStatus; simpl.
  destruct (signal && aborted_at_entry env); [done|].
  by rewrite poll_loop_timeout_zero.
Qed.

(** X9: the deadline is looked at only at the head of the loop.
    With a timeout [t] other than 0, [waitForTask] fails with
    [TaskTimeoutError(taskId, t)] at the first loop head at which more
    than [t] has elapsed since entry, provided the iterations before went
    round again and the signal is not aborted there; nothing is asked of
    the client in that iteration. *)
Theorem waitForTask_times_out_at_loop_head taskId options env m t before p after :
  timeout options = Some t → t ≠ 0%Z →
  signal options && aborted_at_entry env = false →
  polls env = before ++ p :: after →
  Forall (λ q, leaves_loop options (startTime env) q = false) before →
  signal options && aborted_at_head p = false →
  (t < now_at_head p - startTime env)%Z →
  ∃ m' events,
    waitForTask taskId options env m
    = Some (Throw (TaskTimeoutError taskId t), m', events) ∧
    last events ≠ Some GetTaskCalled.
Proof.
  intros Ht Hnz Hentry Hpolls Hbefore Hhead Hlate.
  unfold waitForTask. rewrite Hentry, Hpolls.
  destruct (poll_loop_passes taskId options (startTime env) before (p :: after)
              (subscribe_onStatus taskId options m).2 [] Hbefore)
    as (m1 & events1 & -> & Hlast).
  simpl. rewrite Hhead, Ht. unfold timeout_exceeded.
  rewrite (proj2 (Z.eqb_neq t 0) Hnz), (proj2 (Z.ltb_lt _ _) Hlate); simpl.
  eexists _, _. split; [done|]. by apply Hlast.
Qed.

(** X9 (witness): timeout 25 with polls at 0, 10, 20 and 30: the
    failure comes at 30. *)
Lemma waitForTask_times_out_at_loop_head_witness :
  ∃ m' events,
    waitForTask "task-1" (mkOptions (Some 10%Z) (Some 25%Z) (Some 7) false)
      (mkEnv 0 false [quiet_poll 0 running TimerFires; quiet_poll 10 running TimerFires;
                      quiet_poll 20 running TimerFires; quiet_poll 30 running TimerFires])
      empty
    = Some (Throw (TaskTimeoutError "task-1" 25), m', events) ∧
    last events ≠ Some GetTaskCalled.
Proof.
  apply (waitForTask_times_out_at_loop_head "task-1"
           (mkOptions (Some 10%Z) (Some 25%Z) (Some 7) false)
           (mkEnv 0 false [quiet_poll 0 running TimerFires; quiet_poll 10 running TimerFires;
                           quiet_poll 20 running TimerFires; quiet_poll 30 running TimerFires])
           empty 25
           [quiet_poll 0 running TimerFires; quiet_poll 10 running TimerFires;
            quiet_poll 20 running TimerFires]
           (quiet_poll 30 running TimerFires) []);
    first [reflexivity | discriminate | repeat constructor].
Defined.

(** X10: an abort that [waitForTask] itself sees.  With a signal that
    is aborted at entry, [waitForTask] fails with
    [TaskAbortedError(taskId)] without any call on the client; with a
    signal found aborted at a loop head after iterations that went round
    again, it fails with [TaskAbortedError(taskId)] as well. *)
Theorem waitForTask_aborted_outside_sleep taskId options env m :
  signal options = true →
  (aborted_at_entry env = true →
   ∃ m', waitForTask taskId options env m
         = Some (Throw (TaskAbortedError taskId), m', [])) ∧
  (∀ before p after,
     aborted_at_entry env = false →
     polls env = before ++ p :: after →
     Forall (λ q, leaves_loop options (startTime env) q = false) before →
     aborted_at_head p = true →
     ∃ m' events, waitForTask taskId options env m
                  = Some (Throw (TaskAbortedError taskId), m', events)).
Proof.
  intros Hsignal. split.
  - intros Hentry. unfold waitForTask. rewrite Hsignal, Hentry; simpl. eauto.
  - intros before p after Hentry Hpolls Hbefore Hhead.
    unfold waitForTask. rewrite Hsignal, Hentry, Hpolls; simpl.
    destruct (poll_loop_passes taskId options (startTime env) before (p :: after)
                (subscribe_onStatus taskId options m).2 [] Hbefore)
      as (m1 & events1 & -> & _).
    simpl. rewrite Hsignal, Hhead; simpl. eauto.
Qed.

(** X10 (witness): a signal aborted before the call. *)
Lemma waitForTask_aborted_outside_sleep_witness :
  ∃ m', waitForTask "task-1" (mkOptions None None (Some 7) true)
          (mkEnv 0 true [quiet_poll 0 running TimerFires]) empty
        = Some (Throw (TaskAbortedError "task-1"), m', []).
Proof.
  exact (proj1 (waitForTask_aborted_outside_sleep "task-1"
                  (mkOptions None None (Some 7) true)
                  (mkEnv 0 true [quiet_poll 0 running TimerFires]) empty eq_refl)
           eq_refl).
Defined.

End PollingSpec.

(* ===================================================================== *)
(** * Further properties of DedalusMCPClient *)
(* ===================================================================== *)

Module ClientCallsSpec.
Import Client ClientCalls.

Implicit Types (c : DedalusMCPClient) (op : CancellableOperation).

(** ** connect *)

(** X11: how [connect()] ends.  On a connected client it does nothing.
    Otherwise: when the handshake resolves first the client is connected;
    when the timer fires first, the transport is asked to close once, and
    whether that close works or throws the call fails with
    [MCPTimeoutError] carrying the configured timeout; every failure
    leaves the client not connected and is an [MCPTimeoutError] or an
    [MCPConnectionError], never the error of the handshake as it came. *)
Theorem connect_outcomes (connectionTimeout : Z) (race : Race)
    (transport_close : Result unit) c :
  (connected c = true →
   connect connectionTimeout race transport_close c = (Ok tt, c, [])) ∧
  (connected c = false →
   (race = HandshakeFirst (Ok tt) →
    connect connectionTimeout race transport_close c
    = (Ok tt, with_connected true c, [SdkConnect])) ∧
   (race = TimerFirst →
    connect connectionTimeout race transport_close c
    = (Throw (MCPTimeoutError "Connection timed out" connectionTimeout), c,
       [SdkConnect; TransportClose])) ∧
   (∀ e, (connect connectionTimeout race transport_close c).1.1 = Throw e →
         (connect connectionTimeout race transport_close c).1.2 = c ∧
         ((∃ message timeoutMs, e = MCPTimeoutError message timeoutMs) ∨
          (∃ message, e = MCPConnectionError message)))).
Proof.
  unfold connect. split.
  - by intros ->.
  - intros ->. split_and!.
    + by intros ->.
    + intros ->. by destruct transport_close.
    + intros e. destruct race as [[[]|thrown]|]; simpl.
      * done.
      * destruct thrown; simpl; try (intros [= <-]; split; [done|]; eauto).
        destruct transport_close; intros [= <-]; split; eauto.
      * destruct transport_close; intros [= <-]; split; eauto.
Qed.

(** ** callToolWithProgress *)


(** ** cancel() and cancelRequest *)

Lemma cancellations_of_app requestId calls calls' :
  cancellations_of requestId (calls ++ calls')
  = cancellations_of requestId calls + cancellations_of requestId calls'.
Proof.
  induction calls as [|call calls IH]; simpl; [done|].
  destruct call; rewrite IH; lia.
Qed.

Lemma attempt_not_pending op c a :
  Cancellation.isPending (requestId op) (cancellationManager c) = false →
  attempt op c a = c.
Proof.
  intros Hp. destruct a; simpl.
  - by apply ClientSpec.cancel_operation_not_pending.
  - apply CancellationSpec.isPending_false in Hp.
    unfold cancelRequest. by rewrite (CancellationSpec.cancel_not_pending _ _ Hp).
Qed.

Lemma attempt_pending op c a :
  Cancellation.isPending (requestId op) (cancellationManager c) = true →
  cancellations_of (requestId op) (sdk_calls (attempt op c a))
  = cancellations_of (requestId op) (sdk_calls c) + 1 ∧
  Cancellation.isPending (requestId op) (cancellationManager (attempt op c a)) = false.
Proof.
  intros [ctrl Hp]%CancellationSpec.isPending_true.
  assert (Hgone : ∀ cm, Cancellation.pendingRequests cm
                        = delete (requestId op) (Cancellation.pendingRequests
                                                   (cancellationManager c)) →
            Cancellation.isPending (requestId op) cm = false).
  { intros cm Hcm. apply CancellationSpec.isPending_false. rewrite Hcm.
    apply lookup_delete_eq. }
  destruct a; simpl; unfold cancel_operation, cancelRequest;
    rewrite (CancellationSpec.cancel_pending _ _ _ Hp); simpl;
    rewrite cancellations_of_app; simpl;
    (rewrite bool_decide_eq_true_2 by done); (split; [lia|by apply Hgone]).
Qed.

(** X13: at most one cancellation notification per request.  However
    often and in whatever order the operation's [cancel()] and
    [cancelRequest] with its id are called, the server is sent at most
    one [notifications/cancelled] for the id; exactly one if the request
    was pending and there was an attempt, and none, the client staying
    as it was, if it was no longer pending. *)
Theorem at_most_one_cancellation op (attempts : list CancelAttempt) c :
  let after := foldl (attempt op) c attempts in
  let sent := cancellations_of (requestId op) (sdk_calls after)
              - cancellations_of (requestId op) (sdk_calls c) in
  cancellations_of (requestId op) (sdk_calls c)
  ≤ cancellations_of (requestId op) (sdk_calls after) ∧
  sent ≤ 1 ∧
  (Cancellation.isPending (requestId op) (cancellationManager c) = false → after = c) ∧
  (Cancellation.isPending (requestId op) (cancellationManager c) = true →
   attempts ≠ [] → sent = 1).
Proof.
  assert (Hidle : ∀ attempts c,
            Cancellation.isPending (requestId op) (cancellationManager c) = false →
            foldl (attempt op) c attempts = c).
  { clear. induction attempts as [|a attempts IH]; intros c Hp; simpl; [done|].
    rewrite attempt_not_pending by done. by apply IH. }
  simpl. destruct attempts as [|a attempts]; simpl.
  { split_and!; [lia|lia|done|done]. }
  destruct (Cancellation.isPending (requestId op) (cancellationManager c)) eqn:Hp.
  - destruct (attempt_pending op c a Hp) as [Hsent Hgone].
    rewrite (Hidle attempts _ Hgone), Hsent. split_and!; [lia|lia|done|]. intros _ _. lia.
  - rewrite (attempt_not_pending op c a Hp), (Hidle attempts c Hp).
    split_and!; [lia|lia|done|done].
Qed.

(** X13 (an instance): cancelling a call in flight three times. *)
Example at_most_one_cancellation_run :
  let started := callToolCancellable 5 "long_operation" None (new_client true) in
  let after := foldl (attempt started.1) started.2
                     [ViaCancelRequest (Some "timeout"); ViaCancel; ViaCancelRequest None] in
  sdk_calls after
  = [SdkCallTool "long_operation" None None;
     SdkNotification "notifications/cancelled" "req-5-0" (Some "timeout")].
Proof. reflexivity. Qed.

(** ** Pagination *)

Section pagination_more_facts.
Context {Item Server : Type}.
Variable sdk_list : Server → option string → Result (Page Item) * Server.

Lemma listAll_loop_never_returns c :
  connected c = true →
  (∀ srv param, ∃ page srv', sdk_list srv param = (Ok page, srv') ∧
                             truthy (nextCursor page) = true) →
  ∀ fuel cursor acc srv sent,
    cursor = None ∨ truthy cursor = true →
    listAll_loop sdk_list fuel c cursor acc srv sent = None.
Proof.
  intros Hconn Hmore. induction fuel as [|fuel IH]; intros cursor acc srv sent Hcur;
    simpl; [done|].
  rewrite (ClientSpec.list_page_connected sdk_list c cursor srv Hconn Hcur).
  destruct (Hmore srv cursor) as (page & srv' & -> & Htruthy).
  rewrite Htruthy. apply IH. by right.
Qed.

(** X14: no guard against a server that never ends its listing.  On a
    connected client, if the server answers every request with a page
    that carries a non-empty cursor (a cursor that repeats, for
    instance), the pagination helper never returns: no amount of fuel
    gives a result. *)
Theorem listAll_never_returns c srv :
  connected c = true →
  (∀ srv param, ∃ page srv', sdk_list srv param = (Ok page, srv') ∧
                             truthy (nextCursor page) = true) →
  ∀ fuel, listAll sdk_list fuel c srv = None.
Proof.
  intros Hconn Hmore fuel. unfold listAll.
  apply listAll_loop_never_returns; auto.
Qed.

Lemma listAll_loop_fails c srv cursor n e srv' :
  connected c = true →
  fails_after sdk_list srv cursor n e srv' →
  cursor = None ∨ truthy cursor = true →
  ∀ fuel acc sent, n < fuel →
    ∃ sent', listAll_loop sdk_list fuel c cursor acc srv sent
             = Some (Throw e, srv', sent ++ sent') ∧ length sent' = S n.
Proof.
  intros Hconn Hfails.
  induction Hfails as [srv param e srv' Hpage
                      |srv param page cursor srv1 n e srv' Hpage Hnext Hne _ IH];
    intros Hcur fuel acc sent Hfuel;
    (destruct fuel as [|fuel]; [lia|]); simpl;
    rewrite (ClientSpec.list_page_connected sdk_list c _ _ Hconn Hcur), Hpage.
  - by exists [param].
  - assert (Htruthy : truthy (nextCursor page) = true)
      by (apply ClientSpec.truthy_true; eauto).
    rewrite Htruthy, Hnext.
    destruct (IH (or_intror (eq_trans (f_equal truthy (eq_sym Hnext)) Htruthy))
                 fuel (acc ++ items page) (sent ++ [param])) as (sent' & -> & Hlen);
      [lia|].
    exists (param :: sent'). rewrite <- !app_assoc. simpl. by rewrite Hlen.
Qed.

(** X15: a failing page fails the whole listing.  On a connected
    client, if the server answers [n] pages with non-empty cursors and
    rejects the request after them, the pagination helper fails with
    that error after [n + 1] requests; the items of the pages already
    fetched are not returned. *)
Theorem listAll_fails_with_page c srv n e srv' fuel :
  connected c = true →
  fails_after sdk_list srv None n e srv' →
  n < fuel →
  ∃ sent, listAll sdk_list fuel c srv = Some (Throw e, srv', sent) ∧
          length sent = S n.
Proof.
  intros Hconn Hfails Hfuel. unfold listAll.
  destruct (listAll_loop_fails c srv None n e srv' Hconn Hfails (or_introl eq_refl)
              fuel [] [] Hfuel) as (sent' & -> & Hlen).
  by exists sent'.
Qed.

End pagination_more_facts.

(** X14 (witness): a cursor that repeats. *)
Lemma listAll_never_returns_witness :
  listAllTools (mkSdk _ _ _ _ cycling_server cycling_server cycling_server)
    1000 (new_client true) 0 = None.
Proof.
  apply (listAll_never_returns cycling_server (new_client true) 0 eq_refl).
  intros srv param. by exists (mkPage [srv] (Some "again")), (S srv).
Defined.

(** X15 (witness): the third request fails. *)
Lemma listAll_fails_with_page_witness :
  ∃ sent, listAll failing_server 5 (new_client true) 0
          = Some (Throw (Error "page unavailable"), 3, sent) ∧ length sent = 3.
Proof.
  apply (listAll_fails_with_page failing_server (new_client true) 0 2
           (Error "page unavailable") 3 5 eq_refl); [|lia].
  eapply fails_later; [reflexivity..|discriminate|].
  eapply fails_later; [reflexivity..|discriminate|].
  by apply fails_now.
Defined.

End ClientCallsSpec.

(* ===================================================================== *)
(** * Properties of MCPClientManager's bring-up *)
(* ===================================================================== *)

Module BringupSpec.
Import Manager Bringup.

(** ** The chunks of connectParallel *)

Lemma chunk_loop_from {A} (k : nat) (entries : list A) :
  0 < k →
  ∀ fuel i chunks, length entries - i ≤ fuel →
    ∃ rest, chunk_loop fuel k entries i chunks = Some (chunks ++ rest) ∧
            concat rest = drop i entries ∧
            Forall (λ chunk, 0 < length chunk ≤ k) rest ∧
            (∀ j chunk, rest !! j = Some chunk → S j < length rest → length chunk = k).
Proof.
  intros Hk. induction fuel as [|fuel IH]; intros i chunks Hfuel.
  - exists []. simpl. rewrite bool_decide_eq_false_2 by lia.
    rewrite app_nil_r, drop_ge by lia. split_and!; [done..|]. by intros j chunk ?.
  - simpl. case_bool_decide as Hi.
    + destruct (IH (i + k) (chunks ++ [slice i k entries])) as (rest & -> & Hcat & Hall & Hfull);
        [lia|].
      exists (slice i k entries :: rest).
      assert (Hlen : length (slice i k entries) = k `min` (length entries - i)).
      { unfold slice. by rewrite length_take, length_drop. }
      split_and!.
      * by rewrite <- app_assoc.
      * simpl. rewrite Hcat. unfold slice.
        rewrite <- drop_drop. apply take_drop.
      * constructor; [lia|done].
      * intros [|j] chunk; simpl.
        -- intros [= <-] Hmore. rewrite Hlen.
           destruct (decide (i + k < length entries)) as [|Hend]; [lia|].
           rewrite drop_ge in Hcat by lia.
           destruct rest as [|chunk' rest]; [simpl in Hmore; lia|].
           apply Forall_cons in Hall as [Hpos _]. simpl in Hcat.
           destruct chunk'; [simpl in Hpos; lia|done].
        -- intros Hj Hmore. apply (Hfull j); [done|lia].
    + exists []. rewrite app_nil_r, drop_ge by lia.
      split_and!; [done..|]. by intros j chunk ?.
Qed.

(** X16: the chunks of [connectParallel].  For a positive
    [maxConcurrent] the loop ends, and the chunks, one after the other,
    are the entries in their order; no chunk is empty or longer than
    [maxConcurrent], and every chunk but the last has exactly
    [maxConcurrent] entries. *)
Theorem chunks_partition {A} (maxConcurrent : nat) (entries : list A) :
  0 < maxConcurrent →
  ∃ chunks,
    chunk_loop (length entries) maxConcurrent entries 0 [] = Some chunks ∧
    concat chunks = entries ∧
    Forall (λ chunk, 0 < length chunk ≤ maxConcurrent) chunks ∧
    (∀ j chunk, chunks !! j = Some chunk → S j < length chunks →
                length chunk = maxConcurrent).
Proof.
  intros Hk.
  destruct (chunk_loop_from maxConcurrent entries Hk (length entries) 0 [])
    as (chunks & Hloop & Hcat & Hall & Hfull); [lia|].
  exists chunks. by split_and!.
Qed.

(** X16 (witness): five entries, at most two at a time. *)
Lemma chunks_partition_witness :
  ∃ chunks,
    chunk_loop 5 2 ["a"; "b"; "c"; "d"; "e"] 0 [] = Some chunks ∧
    concat chunks = ["a"; "b"; "c"; "d"; "e"] ∧
    Forall (λ chunk, 0 < length chunk ≤ 2) chunks ∧
    (∀ j chunk, chunks !! j = Some chunk → S j < length chunks → length chunk = 2).
Proof.
  apply (chunks_partition 2 ["a"; "b"; "c"; "d"; "e"]). lia.
Defined.

Example chunks_of_five :
  chunk_loop 5 2 ["a"; "b"; "c"; "d"; "e"] 0 [] = Some [["a"; "b"]; ["c"; "d"]; ["e"]].
Proof. reflexivity. Qed.

Lemma chunk_loop_zero {A} (entries : list A) fuel chunks :
  entries ≠ [] → chunk_loop fuel 0 entries 0 chunks = None.
Proof.
  intros Hne. revert chunks. induction fuel as [|fuel IH]; intros chunks; simpl.
  - rewrite bool_decide_eq_true_2; [done|]. destruct entries; [done|simpl; lia].
  - rewrite bool_decide_eq_true_2 by (destruct entries; [done|simpl; lia]).
    apply IH.
Qed.

(** X17: [maxConcurrent: 0] hangs the parallel bring-up.  With
    [parallelConnect] on, [maxConcurrent] 0 and at least one server in
    the config, the chunking loop never advances, so [loadConfig] never
    returns: no amount of fuel gives a result (and no server is ever
    started). *)
Theorem loadConfig_zero_concurrency_hangs (connect : string → Factory → Result nat)
    (entries : list (string * MCPServerConfig)) (mgr : MCPClientManager) :
  parallelConnect mgr = true → maxConcurrent mgr = 0 → entries ≠ [] →
  ∀ fuel, loadConfig connect fuel entries mgr = None.
Proof.
  intros Hpar Hzero Hne fuel. unfold loadConfig, connectParallel.
  by rewrite Hpar, Hzero, chunk_loop_zero.
Qed.

(** X17 (witness) *)
Lemma loadConfig_zero_concurrency_hangs_witness :
  loadConfig (λ _ _, Ok 1) 1000 [("fs", config_of (Some "cmd") None)]
    {| clients := ∅; defaultClientOptions := no_options;
       parallelConnect := true; maxConcurrent := 0 |} = None.
Proof.
  apply loadConfig_zero_concurrency_hangs; [reflexivity | reflexivity | discriminate].
Defined.

(** ** The parallel bring-up *)

Section parallel.
Variable connect : string → Factory → Result nat.

Lemma createClient_defaults c mgr mgr' config :
  defaultClientOptions mgr = defaultClientOptions mgr' →
  createClient c mgr config = createClient c mgr' config.
Proof. intros Heq. unfold createClient. by rewrite Heq. Qed.

Lemma finish_server_defaults b started :
  defaultClientOptions (manager (finish_server b started))
  = defaultClientOptions (manager b).
Proof. unfold finish_server. by destruct (started.2.1). Qed.

Lemma foldl_finish_defaults started b :
  defaultClientOptions (manager (foldl finish_server b started))
  = defaultClientOptions (manager b).
Proof.
  revert b. induction started as [|s started IH]; intros b; simpl; [done|].
  by rewrite IH, finish_server_defaults.
Qed.

Lemma foldl_finish_lookup started b name :
  NoDup started.*1 →
  clients (manager (foldl finish_server b started)) !! name
  = match (list_to_map started : gmap string _) !! name with
    | Some (Ok client, _) => Some client
    | _ => clients (manager b) !! name
    end.
Proof.
  revert b. induction started as [|[n [r fs]] started IH]; intros b Hnodup; simpl.
  { by rewrite lookup_empty. }
  apply NoDup_cons in Hnodup as [Hn Hnodup].
  rewrite (IH _ Hnodup). destruct (decide (n = name)) as [->|Hne].
  - rewrite lookup_insert_eq.
    rewrite (not_elem_of_list_to_map_1 (M:=gmap string) started name Hn).
    unfold finish_server; simpl. destruct r; simpl; [|done].
    by rewrite lookup_insert_eq.
  - rewrite lookup_insert_ne by done.
    destruct ((list_to_map started : gmap string _) !! name) as [[[client|e] fs']|]; [done| |];
      unfold finish_server; simpl; destruct r; simpl; try done;
      by rewrite lookup_insert_ne.
Qed.

Lemma started_names mgr (chunk : list (string * MCPServerConfig)) :
  (start_server connect mgr <$> chunk).*1 = chunk.*1.
Proof. induction chunk as [|[n config] chunk IH]; [done|]. rewrite !fmap_cons. by f_equal. Qed.

Lemma started_lookup mgr (chunk : list (string * MCPServerConfig)) name :
  (list_to_map (start_server connect mgr <$> chunk) : gmap string _) !! name
  = (λ config, (start_server connect mgr (name, config)).2)
      <$> (list_to_map chunk : gmap string _) !! name.
Proof.
  induction chunk as [|[n config] chunk IH]; simpl.
  { by rewrite !lookup_empty. }
  destruct (decide (n = name)) as [->|Hne].
  - by rewrite !lookup_insert_eq.
  - by rewrite !lookup_insert_ne.
Qed.

Lemma connect_chunk_lookup b (chunk : list (string * MCPServerConfig)) name :
  NoDup chunk.*1 →
  clients (manager (connect_chunk connect b chunk)) !! name
  = match clients (manager b) !! name with
    | Some client => Some client
    | None => (list_to_map chunk : gmap string _) !! name
                ≫= connected_as connect (manager b) name
    end.
Proof.
  intros Hnodup. unfold connect_chunk.
  rewrite foldl_finish_lookup by (by rewrite started_names).
  rewrite started_lookup.
  destruct ((list_to_map chunk : gmap string _) !! name) as [config|]; simpl.
  - unfold start_server, connected_as; simpl.
    destruct (clients (manager b) !! name) as [client|] eqn:Hc; simpl.
    + done.
    + by destruct (createClient (connect name) (manager b) config) as [[client|e] fs].
  - by destruct (clients (manager b) !! name).
Qed.

Lemma connected_as_defaults mgr mgr' name config :
  defaultClientOptions mgr = defaultClientOptions mgr' →
  connected_as connect mgr name config = connected_as connect mgr' name config.
Proof.
  intros Heq. unfold connected_as. by rewrite (createClient_defaults _ mgr mgr').
Qed.

Lemma connect_chunks_lookup (chunks : list (list (string * MCPServerConfig))) b name :
  NoDup (concat chunks).*1 →
  clients (manager (foldl (connect_chunk connect) b chunks)) !! name
  = match clients (manager b) !! name with
    | Some client => Some client
    | None => (list_to_map (concat chunks) : gmap string _) !! name
                ≫= connected_as connect (manager b) name
    end.
Proof.
  revert b. induction chunks as [|chunk chunks IH]; intros b Hnodup; simpl.
  { rewrite lookup_empty. by destruct (clients (manager b) !! name). }
  rewrite concat_cons, fmap_app in Hnodup.
  apply NoDup_app in Hnodup as (Hchunk & Hdisjoint & Hrest).
  rewrite (IH _ Hrest), (connect_chunk_lookup _ _ _ Hchunk).
  rewrite list_to_map_app, lookup_union.
  assert (Hdefaults : defaultClientOptions (manager (connect_chunk connect b chunk))
                      = defaultClientOptions (manager b))
    by apply foldl_finish_defaults.
  destruct (clients (manager b) !! name) as [client|]; [done|].
  destruct ((list_to_map chunk : gmap string _) !! name) as [config|] eqn:Hin; simpl.
  - assert (Hout : (list_to_map (concat chunks) : gmap string MCPServerConfig) !! name = None).
    { apply not_elem_of_list_to_map_1, Hdisjoint.
      apply elem_of_list_to_map_2 in Hin. apply list_elem_of_fmap. by exists (name, config). }
    rewrite Hout. simpl.
    by destruct (connected_as connect (manager b) name config).
  - rewrite (left_id None _).
    destruct ((list_to_map (concat chunks) : gmap string _) !! name) as [config|]; simpl; [|done].
    by apply connected_as_defaults.
Qed.

(** X18: the parallel bring-up tolerates failures.  With
    [parallelConnect] on, a positive [maxConcurrent] and a config that
    names each server once, [loadConfig] returns normally whatever fails.
    Afterwards a name that was registered before still has its client; a
    new name of the config is registered exactly if its own client could
    be constructed and connected: one server's failure (a bad config, a
    refused connection) does not keep another from coming up. *)
Theorem loadConfig_parallel_tolerates_failures
    (entries : list (string * MCPServerConfig)) (mgr : MCPClientManager) :
  parallelConnect mgr = true → 0 < maxConcurrent mgr → NoDup entries.*1 →
  ∃ b,
    loadConfig connect (length entries) entries mgr = Some (Ok tt, b) ∧
    ∀ name,
      clients (manager b) !! name
      = match clients mgr !! name with
        | Some client => Some client
        | None => (list_to_map entries : gmap string _) !! name
                    ≫= connected_as connect mgr name
        end.
Proof.
  intros Hpar Hk Hnodup. unfold loadConfig, connectParallel. rewrite Hpar.
  destruct (chunks_partition (maxConcurrent mgr) entries Hk) as (chunks & -> & Hcat & _).
  eexists. split; [done|]. intros name.
  rewrite connect_chunks_lookup by (by rewrite Hcat). simpl. by rewrite Hcat.
Qed.

End parallel.

(** X18 (witness): three new servers, one of them without a command or
    a url, next to a registered one. *)
Lemma loadConfig_parallel_tolerates_failures_witness :
  ∃ b,
    loadConfig (λ name _, if decide (name = "api") then Throw (MCPConnectionError "refused")
                          else Ok (String.length name))
      3 [("fs", config_of (Some "cmd") None); ("bad", config_of None None);
         ("api", config_of None (Some "http://localhost"))]
      (manager_with {[ "old" := 0 ]}) = Some (Ok tt, b) ∧
    clients (manager b) !! "old" = Some 0 ∧
    clients (manager b) !! "fs" = Some 2 ∧
    clients (manager b) !! "bad" = None ∧
    clients (manager b) !! "api" = None.
Proof.
  destruct (loadConfig_parallel_tolerates_failures
              (λ name _, if decide (name = "api") then Throw (MCPConnectionError "refused")
                         else Ok (String.length name))
              [("fs", config_of (Some "cmd") None); ("bad", config_of None None);
               ("api", config_of None (Some "http://localhost"))]
              (manager_with {[ "old" := 0 ]}))
    as (b & Hload & Hlookup).
  - reflexivity.
  - simpl. lia.
  - apply (bool_decide_unpack _). vm_compute. exact I.
  - exists b. split; [exact Hload|].
    rewrite !Hlookup. split_and!; reflexivity.
Defined.

(** ** The sequential bring-up *)

Lemma addServer_throws (connect : Factory → Result nat) name config mgr e mgr' factories :
  addServer connect name config mgr = (Throw e, mgr', factories) → mgr' = mgr.
Proof.
  unfold addServer. case_bool_decide; [by intros [= _ <- _]|].
  destruct (createClient connect mgr config) as [[client|e'] fs]; by intros [= <-].
Qed.

Lemma connectSequential_app (connect : string → Factory → Result nat) before after b b1 :
  connectSequential connect before b = (Ok tt, b1) →
  connectSequential connect (before ++ after) b = connectSequential connect after b1.
Proof.
  revert b. induction before as [|[name config] before IH]; intros b; simpl.
  { by intros [= ->]. }
  destruct (addServer (connect name) name config (manager b)) as [[[client|e] mgr] fs];
    [apply IH|done].
Qed.

(** X19: the sequential bring-up stops at the first failure.  With
    [parallelConnect] off, when the servers before an entry have all
    come up and [addServer] throws for that entry, [loadConfig] throws
    the same error; the servers before it stay registered, and no client
    is made for the entries after it, whatever they are. *)
Theorem loadConfig_sequential_stops_at_failure (connect : string → Factory → Result nat)
    (before after : list (string * MCPServerConfig)) name config mgr b1 e mgr' factories fuel :
  parallelConnect mgr = false →
  connectSequential connect before (mkBrought mgr [] []) = (Ok tt, b1) →
  addServer (connect name) name config (manager b1) = (Throw e, mgr', factories) →
  loadConfig connect fuel (before ++ (name, config) :: after) mgr
  = Some (Throw e, {| manager := manager b1; made := made b1 ++ factories;
                      logged := [] |}).
Proof.
  intros Hseq Hbefore Hadd. unfold loadConfig. rewrite Hseq.
  rewrite (connectSequential_app _ _ _ _ _ Hbefore). simpl. rewrite Hadd.
  apply addServer_throws in Hadd as ->.
  assert (Hlogged : ∀ entries b b', connectSequential connect entries b = (Ok tt, b') →
                                    logged b' = logged b).
  { clear. induction entries as [|[n c] entries IH]; intros b b'; simpl.
    - by intros [= ->].
    - destruct (addServer (connect n) n c (manager b)) as [[[client|e] mgr] fs]; [|done].
      intros Hrest. by rewrite (IH _ _ Hrest). }
  by rewrite (Hlogged _ _ _ Hbefore).
Qed.

(** X19 (witness): the second of three servers has neither a command
    nor a url. *)
Lemma loadConfig_sequential_stops_at_failure_witness :
  let mgr := {| clients := ∅; defaultClientOptions := no_options;
                parallelConnect := false; maxConcurrent := 10 |} in
  loadConfig (λ name _, Ok (String.length name)) 0
    ([("fs", config_of (Some "cmd") None)] ++ ("bad", config_of None None)
       :: [("api", config_of None (Some "http://localhost"))]) mgr
  = Some (Throw config_error,
          {| manager := with_clients {[ "fs" := 2 ]} mgr;
             made := [FromStdio (stdioOptions no_options (config_of (Some "cmd") None))] ++ [];
             logged := [] |}).
Proof.
  intros mgr.
  exact (loadConfig_sequential_stops_at_failure (λ name _, Ok (String.length name))
           [("fs", config_of (Some "cmd") None)]
           [("api", config_of None (Some "http://localhost"))]
           "bad" (config_of None None) mgr
           {| manager := with_clients {[ "fs" := 2 ]} mgr;
              made := [FromStdio (stdioOptions no_options (config_of (Some "cmd") None))];
              logged := [] |}
           config_error (with_clients {[ "fs" := 2 ]} mgr) [] 0
           eq_refl eq_refl eq_refl).
Defined.

(** ** removeServer *)

(** X20: [removeServer] and a [close] that fails.  An unknown name
    gives [false] and closes nothing.  When the client closes, every
    other registration is untouched and the name is free again: a later
    [addServer] of it succeeds whenever its client can be made.  When
    [client.close()] throws, [removeServer] throws the same error and
    the server stays registered: a later [addServer] of the name is
    still refused as a duplicate. *)
Theorem removeServer_outcomes (close : nat → Result unit)
    (connect : Factory → Result nat) name mgr :
  (clients mgr !! name = None → removeServer close name mgr = (Ok false, mgr, [])) ∧
  (∀ client, clients mgr !! name = Some client → close client = Ok tt →
     ∃ mgr', removeServer close name mgr = (Ok true, mgr', [client]) ∧
             hasServer name mgr' = false ∧
             (∀ other, other ≠ name → clients mgr' !! other = clients mgr !! other) ∧
             (∀ config c made, createClient connect mgr' config = (Ok c, made) →
                               (addServer connect name config mgr').1.1 = Ok c)) ∧
  (∀ client e, clients mgr !! name = Some client → close client = Throw e →
     removeServer close name mgr = (Throw e, mgr, [client]) ∧
     hasServer name mgr = true ∧
     ∀ config, addServer connect name config mgr = (Throw (exists_error name), mgr, [])).
Proof.
  unfold removeServer. split_and!.
  - by intros ->.
  - intros client Hclient Hclose. rewrite Hclient, Hclose.
    eexists. split; [done|]. split_and!.
    + unfold hasServer; simpl. rewrite lookup_delete_eq.
      apply bool_decide_eq_false_2. by intros [? ?].
    + intros other Hother. simpl. by rewrite lookup_delete_ne.
    + intros config c made Hcreate. unfold addServer. cbn [clients with_clients].
      rewrite lookup_delete_eq.
      rewrite bool_decide_eq_false_2 by (by intros [? ?]).
      by rewrite Hcreate.
  - intros client e Hclient Hclose. rewrite Hclient, Hclose. split; [done|].
    assert (Hhas : bool_decide (is_Some (clients mgr !! name)) = true).
    { apply bool_decide_eq_true_2. by exists client. }
    split; [done|]. intros config. unfold addServer. by rewrite Hhas.
Qed.

Example removeServer_close_fails :
  let mgr := manager_with {[ "fs" := 1; "api" := 2 ]} in
  let close := λ client, if decide (client = 1) then Throw (Error "EPIPE") else Ok tt in
  removeServer close "fs" mgr = (Throw (Error "EPIPE"), mgr, [1]) ∧
  removeServer close "api" mgr = (Ok true, manager_with {[ "fs" := 1 ]}, [2]) ∧
  removeServer close "db" mgr = (Ok false, mgr, []).
Proof. vm_compute. done. Qed.

(** ** readResource *)

(** X21: [readResource] asks the servers in the order of the registry
    and answers with the first success.  The servers before the first
    one that can read the resource are each asked once and their errors
    are dropped; the servers after it are not asked; the answer carries
    that server's name.  When every server fails (or none is registered)
    the error is [Resource not found] with the uri, whatever the servers
    had thrown. *)
Theorem readResource_first_success (read : nat → string → Result Json)
    (entries : list (string * nat)) (uri : string) :
  (∀ before name client after result,
     entries = before ++ (name, client) :: after →
     Forall (λ entry, ∃ e, read entry.2 uri = Throw e) before →
     read client uri = Ok result →
     readResource read entries uri = (Ok (result, name), before.*2 ++ [client])) ∧
  (Forall (λ entry, ∃ e, read entry.2 uri = Throw e) entries →
   readResource read entries uri
   = (Throw (Error ("Resource not found: " +:+ uri)), entries.*2)).
Proof.
  split.
  - intros before name client after result -> Hbefore Hread.
    induction Hbefore as [|[n c] before [e He] _ IH]; simpl.
    + by rewrite Hread.
    + simpl in He. rewrite He, IH. done.
  - intros Hall. induction Hall as [|[n c] rest [e He] _ IH]; simpl; [done|].
    simpl in He. by rewrite He, IH.
Qed.

Example readResource_second_server :
  let read := λ (client : nat) (uri : string),
                if decide (client = 2) then Ok ("contents of " +:+ uri)
                else Throw (MCPConnectionError "Client not connected") in
  readResource read [("a", 1); ("b", 2); ("c", 3)] "file:///x"
  = (Ok ("contents of file:///x", "b"), [1; 2]) ∧
  readResource read [("a", 1); ("c", 3)] "file:///x"
  = (Throw (Error "Resource not found: file:///x"), [1; 3]).
Proof. vm_compute. done. Qed.

(** ** listAllTools and callTool *)

Lemma listAllTools_elem list_tools entries all lt :
  listAllTools list_tools entries = Ok all → lt ∈ all →
  ∃ client tools tool,
    (server lt, client) ∈ entries ∧ list_tools client = Ok tools ∧ tool ∈ tools ∧
    lt = list_entry (server lt) tool.
Proof.
  revert all. induction entries as [|[name client] entries IH]; intros all; simpl.
  { intros [= <-] Hin. by apply elem_of_nil in Hin. }
  destruct (list_tools client) as [tools|e] eqn:Htools; [|done].
  destruct (listAllTools list_tools entries) as [rest|e]; [|done].
  intros [= <-] [Hin|Hin]%elem_of_app.
  - apply list_elem_of_fmap in Hin as (tool & -> & Htool).
    exists client, tools, tool. simpl. split_and!; [left|done..].
  - destruct (IH rest eq_refl Hin) as (client' & tools' & tool & Hentry & ? & ? & ?).
    exists client', tools', tool. split_and!; [by right|done..].
Qed.

Lemma callTool_delegates mgr (args : option string) s r client :
  s ≠ EmptyString → contains dot s = false → clients mgr !! s = Some client →
  callTool (s +:+ "." +:+ r) args mgr = Delegates client r args.
Proof.
  intros Hs Hdot Hclient. unfold callTool.
  change (s +:+ "." +:+ r) with (s +:+ String dot r).
  rewrite (ManagerSpec.split_first dot s r Hdot).
  rewrite bool_decide_eq_false_2 by done.
  pose proof (ManagerSpec.split_not_nil dot r) as Hnil.
  rewrite bool_decide_eq_false_2 by (by destruct (split dot r)).
  by rewrite Hclient, ManagerSpec.join_split.
Qed.

(** X22: the names [listAllTools] hands out are the names [callTool]
    takes.  For a registry that names each server once, every entry of
    the listing whose server name is not empty and has no dot is routed
    by [callTool] to the client that listed the tool, under the name the
    server gave it, also when that name has dots of its own. *)
Theorem listAllTools_names_route (list_tools : nat → Result (list Runner.Tool))
    (entries : list (string * nat)) mgr all lt (args : option string) :
  NoDup entries.*1 → clients mgr = list_to_map entries →
  listAllTools list_tools entries = Ok all → lt ∈ all →
  server lt ≠ EmptyString → contains dot (server lt) = false →
  ∃ client tools tool,
    list_tools client = Ok tools ∧ tool ∈ tools ∧
    clients mgr !! server lt = Some client ∧
    callTool (Runner.name (listed lt)) args mgr = Delegates client (Runner.name tool) args.
Proof.
  intros Hnodup Hclients Hlist Hin Hname Hdot.
  destruct (listAllTools_elem _ _ _ _ Hlist Hin)
    as (client & tools & tool & Hentry & Htools & Htool & Hlt).
  assert (Hclient : clients mgr !! server lt = Some client).
  { rewrite Hclients. by apply elem_of_list_to_map_1. }
  exists client, tools, tool. split_and!; [done..|].
  rewrite Hlt at 1. simpl. by apply callTool_delegates.
Qed.

(** X22 (witness) *)
Lemma listAllTools_names_route_witness :
  ∃ client tools tool,
    (λ client : nat, Ok [Runner.mkTool "read.file" None None]) client = Ok tools ∧
    tool ∈ tools ∧
    clients (manager_with {[ "fs" := 1 ]}) !! "fs" = Some client ∧
    callTool "fs.read.file" None (manager_with {[ "fs" := 1 ]})
    = Delegates client (Runner.name tool) None.
Proof.
  apply (listAllTools_names_route
           (λ _, Ok [Runner.mkTool "read.file" None None]) [("fs", 1)]
           (manager_with {[ "fs" := 1 ]})
           [list_entry "fs" (Runner.mkTool "read.file" None None)]
           (list_entry "fs" (Runner.mkTool "read.file" None None)) None).
  - apply (bool_decide_unpack _). vm_compute. exact I.
  - reflexivity.
  - reflexivity.
  - by left.
  - discriminate.
  - reflexivity.
Defined.

(** ** expandEnvVar *)












Example expandEnvVar_examples :
  let env : gmap string string := {[ "HOME" := "/root"; "A" := "${B}"; "B" := "b" ]} in
  expandEnvVar env "${HOME}/data:${UNSET}:${HOME}" = "/root/data::/root" ∧
  expandEnvVar env "${A}" = "${B}" ∧
  expandEnvVar env "${}" = "${}" ∧
  expandEnvVar env "$HOME and ${HOME" = "$HOME and ${HOME" ∧
  expandEnvVar env "${${HOME}}" = "}" ∧
  expandEnvVar env "$${HOME}" = "$/root".
Proof. vm_compute. done. Qed.

End BringupSpec.


(* ===================================================================== *)
(** * Properties of the runner's routing and resource context *)
(* ===================================================================== *)

Module RoutingSpec.
Import Runner Routing.

(** X24: routing after aggregation.  With the map [aggregateMCPTools]
    built from [clients], [routeMCPToolCall] throws [Unknown MCP tool]
    for a name that is not a key, calling no client; for a key it makes
    exactly one call, to a client of [clients] that listed a tool whose
    namespaced name is the key, under the name that server gave the tool
    and with the arguments unchanged, and it returns that call's result
    formatted, or throws what the call threw. *)
Theorem routeMCPToolCall_after_aggregate (stringify : Json → string)
    (callTool : nat → string → Json → Result CallToolResult)
    (clients : list ClientView) (toolMap : gmap string MCPToolInfo)
    (toolName : string) (args : Json) :
  aggregateMCPTools clients = Ok toolMap →
  (isMCPTool toolName toolMap = false →
   routeMCPToolCall stringify callTool toolName args toolMap
   = (Throw (Error ("Unknown MCP tool: " +:+ toolName)), [])) ∧
  (isMCPTool toolName toolMap = true →
   ∃ c tools t,
     c ∈ clients ∧ listAllTools c = Ok tools ∧ t ∈ tools ∧
     toolName = serverName_of c +:+ "." +:+ name t ∧
     routeMCPToolCall stringify callTool toolName args toolMap
     = (match callTool (ref c) (name t) args with
        | Ok result => Ok (formatToolResult stringify result)
        | Throw e => Throw e
        end,
        [(ref c, name t, args)])).
Proof.
  intros Hagg. unfold isMCPTool, routeMCPToolCall. split.
  - intros Hno. apply bool_decide_eq_false in Hno.
    destruct (toolMap !! toolName) as [info|]; [|done].
    exfalso. apply Hno. by exists info.
  - intros [info Hinfo]%bool_decide_eq_true. rewrite Hinfo.
    destruct (RunnerSpec.aggregate_loop_origin clients ∅ toolMap toolName info Hagg Hinfo)
      as [Hempty|(c & tools & t & Hc & Htools & Ht & Hname & ->)].
    { by rewrite lookup_empty in Hempty. }
    exists c, tools, t. by split_and!.
Qed.

(** X24 (witness): the three example clients. *)
Lemma routeMCPToolCall_after_aggregate_witness :
  ∃ toolMap,
    aggregateMCPTools example_clients = Ok toolMap ∧
    routeMCPToolCall id (λ _ _ _, Ok (mkResult None None (Some "{}"))) "fs.delete" "{}" toolMap
    = (Throw (Error "Unknown MCP tool: fs.delete"), []).
Proof.
  destruct (aggregateMCPTools example_clients) as [toolMap|e] eqn:Hagg; [|discriminate Hagg].
  exists toolMap. split; [reflexivity|].
  apply (proj1 (routeMCPToolCall_after_aggregate id
                  (λ _ _ _, Ok (mkResult None None (Some "{}")))
                  example_clients toolMap "fs.delete" "{}" Hagg)).
  injection Hagg as <-. vm_compute. reflexivity.
Defined.

Example routeMCPToolCall_examples :
  let toolMap := default ∅ (match aggregateMCPTools example_clients with
                            | Ok toolMap => Some toolMap | Throw _ => None end) in
  let callTool := λ (client : nat) (name : string) (args : string),
    if decide (client = 3)
    then Ok (mkResult (Some [mkContent "text" (Some "done") None None None;
                             mkContent "image" None (Some "AAAA") (Some "image/png") None;
                             mkContent "resource_link" None None None None])
                      None None)
    else Ok (mkResult (Some [mkContent "text" (Some "no such file") None None None])
                      (Some true) (Some "{}")) in
  routeMCPToolCall id callTool "fs.run" "{}" toolMap
  = (Ok ("done" +:+ newline +:+ "[Image: image/png]" +:+ newline +:+ "[Unknown content]"),
     [(3, "run", "{}")]) ∧
  routeMCPToolCall id callTool "unknown.run" "{}" toolMap
  = (Ok "Error: no such file", [(2, "run", "{}")]).
Proof. vm_compute. done. Qed.

Lemma gather_from read clients uris contexts :
  foldl (λ contexts uri, contexts ++ (gather_uri read clients uri).1) contexts uris
  = contexts ++ gatherResourceContext read clients uris.
Proof.
  unfold gatherResourceContext. revert contexts.
  induction uris as [|uri uris IH] using rev_ind; intros contexts.
  - by rewrite app_nil_r.
  - rewrite !foldl_app. simpl. rewrite IH. by rewrite app_assoc.
Qed.

Lemma gatherResourceContext_app read clients uris uris' :
  gatherResourceContext read clients (uris ++ uris')
  = gatherResourceContext read clients uris ++ gatherResourceContext read clients uris'.
Proof.
  unfold gatherResourceContext at 1. rewrite foldl_app.
  fold (gatherResourceContext read clients uris). apply gather_from.
Qed.

(** X25: [gatherResourceContext] asks the clients in order for each
    uri and takes the first answer.  The clients before the first one
    that can read a uri are each asked once, the clients after it are
    not asked, and the contents it returns become the contexts, in
    order.  A uri that no client can read is skipped without an error:
    every client is asked, and the result is what it would be without
    that uri. *)
Theorem gatherResourceContext_first_reader (read : nat → string → Result (list ResourceContents))
    (clients : list nat) (uri : string) :
  (∀ before c after contents,
     clients = before ++ c :: after →
     Forall (λ c', ∃ e, read c' uri = Throw e) before →
     read c uri = Ok contents →
     gather_uri read clients uri = (context_of <$> contents, before ++ [c])) ∧
  (Forall (λ c, ∃ e, read c uri = Throw e) clients →
   gather_uri read clients uri = ([], clients) ∧
   ∀ uris uris',
     gatherResourceContext read clients (uris ++ uri :: uris')
     = gatherResourceContext read clients (uris ++ uris')).
Proof.
  split.
  - intros before c after contents -> Hbefore Hread.
    induction Hbefore as [|c' before [e He] _ IH]; simpl.
    + by rewrite Hread.
    + by rewrite He, IH.
  - intros Hall.
    assert (Hnone : gather_uri read clients uri = ([], clients)).
    { induction Hall as [|c rest [e He] _ IH]; simpl; [done|]. by rewrite He, IH. }
    split; [done|]. intros uris uris'.
    rewrite !gatherResourceContext_app. f_equal.
    change (uri :: uris') with ([uri] ++ uris').
    rewrite gatherResourceContext_app. unfold gatherResourceContext at 1. simpl.
    by rewrite Hnone.
Qed.

Example gatherResourceContext_examples :
  let read := λ (client : nat) (uri : string),
    if decide (client = 2 ∧ uri = "file:///a")
    then Ok [mkContents "file:///a" (Some "alpha") None (Some "text/plain");
             mkContents "file:///a#bin" None (Some "AAAAAAAA") None]
    else Throw (Error "not found") in
  gatherResourceContext read [1; 2; 3] ["file:///missing"; "file:///a"]
  = [mkContext "file:///a" "alpha" (Some "text/plain");
     mkContext "file:///a#bin" "[Binary: 8 bytes]" None].
Proof. vm_compute. done. Qed.

End RoutingSpec.

(* ===================================================================== *)
(** * Properties of RootsHandler *)
(* ===================================================================== *)

Module RootsSpec.
Import Roots.

Lemma delete_at_length {A} (before : list A) x after :
  delete (length before) (before ++ x :: after) = before ++ after.
Proof. induction before as [|y before IH]; simpl; [done|]. by rewrite IH. Qed.

Lemma findIndex_first {A} (p : A → bool) before x after :
  Forall (λ y, p y = false) before → p x = true →
  findIndex p (before ++ x :: after) = Some (length before).
Proof.
  intros Hbefore Hx. induction Hbefore as [|y before Hy _ IH]; simpl.
  - by rewrite Hx.
  - by rewrite Hy, IH.
Qed.

Lemma findIndex_none {A} (p : A → bool) l :
  Forall (λ y, p y = false) l → findIndex p l = None.
Proof.
  intros Hall. induction Hall as [|y l Hy _ IH]; simpl; [done|]. by rewrite Hy, IH.
Qed.










Lemma unsubscribe_first callback before after rs :
  callback ∉ before →
  unsubscribe callback (mkHandler rs (before ++ callback :: after))
  = mkHandler rs (before ++ after).
Proof.
  intros Hbefore. unfold unsubscribe; simpl.
  rewrite (findIndex_first _ before callback after).
  - by rewrite delete_at_length.
  - apply Forall_forall. intros l Hl. apply bool_decide_eq_false. by intros ->.
  - by apply bool_decide_eq_true.
Qed.

Lemma unsubscribe_absent callback h :
  callback ∉ changeListeners h → unsubscribe callback h = h.
Proof.
  intros Habsent. unfold unsubscribe. rewrite findIndex_none; [done|].
  apply Forall_forall. intros l Hl. apply bool_decide_eq_false. by intros ->.
Qed.

(** X28: what the function returned by [onRootsChanged] removes.  Each
    call removes one registration of its callback, the earliest one,
    whoever made it, and leaves the other listeners in their order; with
    no registration of the callback left it does nothing.  So a callback
    registered twice is gone after one of the two returned functions is
    called twice, and a callback registered once is restored to the
    listeners as they were by its function. *)
Theorem unsubscribe_removes_one_registration (callback : nat) (h : RootsHandler) :
  (callback ∉ changeListeners h → unsubscribe callback h = h) ∧
  (∀ before after,
     changeListeners h = before ++ callback :: after → callback ∉ before →
     unsubscribe callback h = mkHandler (roots h) (before ++ after)) ∧
  (callback ∉ changeListeners h →
   unsubscribe callback (onRootsChanged callback h) = h ∧
   unsubscribe callback
     (unsubscribe callback (onRootsChanged callback (onRootsChanged callback h))) = h).
Proof.
  destruct h as [rs listeners]. simpl. split_and!.
  - intros Habsent. by apply (unsubscribe_absent callback (mkHandler rs listeners)).
  - intros before after -> Hbefore. by apply unsubscribe_first.
  - intros Habsent. unfold onRootsChanged; simpl.
    assert (Honce : unsubscribe callback (mkHandler rs (listeners ++ [callback]))
                    = mkHandler rs listeners).
    { rewrite (unsubscribe_first callback listeners [] rs Habsent). by rewrite app_nil_r. }
    split; [done|].
    rewrite <- (app_assoc listeners [callback] [callback]). simpl.
    by rewrite (unsubscribe_first callback listeners [callback] rs Habsent).
Qed.

End RootsSpec.

(* ===================================================================== *)
(** * Properties of config.ts *)
(* ===================================================================== *)

Module ConfigSpec.
Import Config.

Lemma field_set_other key key' v fields :
  key ≠ key' → field key (set_field key' v fields) = field key fields.
Proof.
  intros Hne. induction fields as [|[k v'] fields IH]; simpl.
  - by rewrite decide_False.
  - destruct (decide (k = key')) as [->|Hk]; simpl.
    + by rewrite !decide_False.
    + by rewrite IH.
Qed.

Lemma field_set_same key v fields : field key (set_field key v fields) = v.
Proof.
  induction fields as [|[k v'] fields IH]; simpl.
  - by rewrite decide_True.
  - destruct (decide (k = key)) as [->|Hk]; simpl.
    + by rewrite decide_True.
    + by rewrite decide_False.
Qed.

Lemma valid_server_headers v fields :
  valid_server (VObject (set_field "headers" v fields)) = valid_server (VObject fields).
Proof.
  unfold valid_server, get. by rewrite !field_set_other.
Qed.

(** X29: [validateMCPConfig] never looks at the value of [headers].
    Setting the [headers] of any server of a config to any value at all
    (a number, null, an array) leaves the verdict as it was, while a
    server with neither a string [command] nor a string [url] is always
    refused. *)
Theorem validateMCPConfig_ignores_headers (other before after : list (string * JsValue))
    (name : string) (fields : list (string * JsValue)) (v : JsValue) :
  validateMCPConfig
    (VObject (set_field "mcpServers"
                (VObject (before ++ (name, VObject (set_field "headers" v fields)) :: after))
                other))
  = validateMCPConfig
      (VObject (set_field "mcpServers"
                  (VObject (before ++ (name, VObject fields) :: after)) other)) ∧
  (is_string (field "command" fields) = false → is_string (field "url" fields) = false →
   validateMCPConfig
     (VObject (set_field "mcpServers"
                 (VObject (before ++ (name, VObject fields) :: after)) other)) = false).
Proof.
  unfold validateMCPConfig, get. rewrite !field_set_same. simpl. split.
  - rewrite !forallb_app. simpl. by rewrite valid_server_headers.
  - intros Hcommand Hurl. rewrite forallb_app. simpl.
    unfold valid_server at 2. simpl. rewrite Hcommand, Hurl. simpl.
    apply andb_false_r.
Qed.

Example validateMCPConfig_examples :
  let config := λ fields, VObject [("mcpServers", VObject [("api", VObject fields)])] in
  validateMCPConfig (config [("url", VString "http://localhost"); ("headers", VNumber 42)])
  = true ∧
  validateMCPConfig (config [("url", VString "http://localhost"); ("headers", VNull)])
  = true ∧
  validateMCPConfig (config [("command", VString "npx"); ("env", VNull)]) = false ∧
  validateMCPConfig (config [("command", VString "npx"); ("cwd", VNumber 42)]) = false ∧
  validateMCPConfig (config [("command", VString EmptyString)]) = true ∧
  validateMCPConfig (config [("headers", VObject [])]) = false ∧
  validateMCPConfig (VObject [("mcpServers", VArray [VObject [("command", VString "npx")]])])
  = true ∧
  validateMCPConfig (VObject [("mcpServers", VObject [])]) = true ∧
  validateMCPConfig (VObject []) = false ∧
  validateMCPConfig VNull = false.
Proof. vm_compute. done. Qed.



Example mergeMCPConfigs_examples :
  let base : gmap string string := {[ "fs" := "npx fs /tmp"; "api" := "http://a" ]} in
  let local : gmap string string := {[ "api" := "http://b" ]} in
  mergeMCPConfigs [base; local] = {[ "fs" := "npx fs /tmp"; "api" := "http://b" ]} ∧
  mergeMCPConfigs [local; base] = base ∧
  mergeMCPConfigs ([] : list (gmap string string)) = ∅.
Proof. vm_compute. done. Qed.

End ConfigSpec.
